(** * chess-talker: the game move annotation scripts

    A shallow embedding of [pgn_to_JSON.py], [pgn_to_JSON_converter.py] and
    [pgn_data_extractor.py].  The three scripts share, word for word, the
    functions [analyze_with_stockfish_api] and
    [process_game_moves_and_analyze]; they differ in
    [parse_pgn_and_generate_json].

    Python integers are [Z], Python strings are [string], dictionaries with a
    fixed literal shape are records or association lists in the order of the
    literal, and [game.headers] is a finite map.  The libraries the scripts
    call (python-chess, requests) are interfaces; the network, the files
    written, the messages printed and the pauses are explicit state. *)

From stdpp Require Import base numbers list strings gmap pretty.

Open Scope string_scope.
Open Scope list_scope.
Open Scope Z_scope.

(** ** Values *)

(** What [response.json()] may return, and what [json.dump] writes. *)
#[warnings="-register-all"]
Inductive Json : Type :=
| JNull
| JBool (b : bool)
| JInt (z : Z)
| JFloat (literal : string)
| JStr (s : string)
| JList (l : list Json)
| JDict (d : list (string * Json)).

(** The dictionary [{"error": msg}]. *)
Definition error_dict (msg : string) : Json := JDict [("error", JStr msg)].

(** The [params] dictionary of the GET request. *)
Record Params : Type := mkParams { param_fen : string; param_depth : Z }.

(** A [requests.Response], as far as the scripts look at it. *)
Record Response : Type := mkResponse { status_code : Z; text : string }.

(** [requests.get] either raises a [requests.exceptions.RequestException]
    (carried here by its [str()]) or hands back a response. *)
Inductive GetOutcome : Type :=
| GetRaises (cause : string)
| GetReturns (response : Response).

(** Exceptions that leave the scripts' functions: a move the board rejects,
    and [open] on a missing [game{i}.pgn]. *)
Inductive Exception : Type :=
| IllegalMoveError (msg : string)
| FileNotFoundError (i : Z).

(** ** The libraries *)

(** python-chess: a board cursor, [board.push(move)] which may reject the
    move, [board.turn] ([chess.WHITE] is [True]; the scripts never read it),
    [board.fen()] and [move.uci()]. *)
Class ChessLib : Type := {
  Board : Type;
  Move : Type;
  push : Board → Move → Exception + Board;
  board_turn : Board → bool;
  board_fen : Board → string;
  move_uci : Move → string
}.

(** requests: the remote service is a state [World] that each GET may
    change; [response_json] is [response.json()], [None] when it raises
    [ValueError]; [http_error_str] is the [str()] of the [HTTPError] that
    [raise_for_status] builds. *)
Class Requests : Type := {
  World : Type;
  requests_get : World → string → Params → GetOutcome * World;
  response_json : string → option Json;
  http_error_str : Response → string
}.

(** [Response.raise_for_status]: an [HTTPError] for a 4xx client error or a
    5xx server error status, nothing otherwise. *)
Definition raise_for_status `{Requests} (response : Response) : option string :=
  if bool_decide (400 ≤ status_code response < 600)
  then Some (http_error_str response)
  else None.

(** ** [str.strip] *)

(** [str.isspace] on the code points below 256. *)
Definition isspace (c : Ascii.ascii) : bool :=
  let n := Z.of_nat (Ascii.nat_of_ascii c) in
  bool_decide (9 ≤ n ≤ 13) || bool_decide (28 ≤ n ≤ 32)
  || bool_decide (n = 133) || bool_decide (n = 160).

Fixpoint lstrip (s : string) : string :=
  match s with
  | String c rest => if isspace c then lstrip rest else s
  | EmptyString => EmptyString
  end.

Definition strip (s : string) : string :=
  String.rev (lstrip (String.rev (lstrip s))).

(** Truth value of a Python string: non-empty. *)
Definition truthy (s : string) : bool :=
  match s with EmptyString => false | String _ _ => true end.

(** ** Effects *)

(** One entry of a game's ["Moves"] list. *)
Record MoveRecord : Type := mkMoveRecord {
  Move_Number : Z;
  Player : string;
  Move_uci : string;
  FEN : string;
  Stockfish_Analysis : Json
}.

(** The dictionary [{"Metadata": ..., "Moves": ...}]. *)
Record GameData : Type := mkGameData {
  Metadata : list (string * string);
  Moves : list MoveRecord
}.

(** What a run does to the outside, in order. *)
Inductive Effect : Type :=
| JsonDumpGame (i : Z) (data : GameData)
| JsonDumpAll (games : list GameData)
| PrintSkipping (i : Z)
| PrintSaved (i : Z)
| PrintAnalyzing (game_counter : Z)
| PrintEndOfFile
| PrintAllSaved
| PrintPausing
| Sleep (seconds : Z).

(** The state a run threads: the remote service, the GET requests issued so
    far (oldest first) and the effects so far (oldest first). *)
Record Sys `{Requests} : Type := mkSys {
  world : World;
  sent : list (string * Params);
  effects : list Effect
}.

Inductive Result (A : Type) : Type :=
| Ok (a : A)
| Raise (e : Exception).
Arguments Ok {A} a.
Arguments Raise {A} e.

(** Computations: state passing with exceptions; the state survives a
    raise, as files already written do. *)
Definition M `{Requests} (A : Type) : Type := Sys → Result A * Sys.

Definition ret `{Requests} {A} (a : A) : M A := fun s => (Ok a, s).

Definition bind `{Requests} {A B} (m : M A) (k : A → M B) : M B :=
  fun s =>
    match m s with
    | (Ok a, s') => k a s'
    | (Raise e, s') => (Raise e, s')
    end.

Definition raise `{Requests} {A} (e : Exception) : M A := fun s => (Raise e, s).

Definition lift_sum `{Requests} {A} (r : Exception + A) : M A :=
  match r with
  | inl e => raise e
  | inr a => ret a
  end.

Definition emit `{Requests} (e : Effect) : M unit :=
  fun s => (Ok tt, mkSys _ (world s) (sent s) (effects s ++ [e])).

Notation "'let*' x ':=' m 'in' k" := (bind m (fun x => k))
  (at level 10, x name, m at level 100, k at level 200, only parsing).
Notation "m '>>' k" := (bind m (fun _ => k))
  (at level 100, k at level 200, right associativity, only parsing).

(** [requests.get(api_url, params=params)]: the request is issued, the
    service answers and moves on. *)
Definition http_get `{Requests} (url : string) (params : Params) : M GetOutcome :=
  fun s =>
    let '(outcome, w) := requests_get (world s) url params in
    (Ok outcome, mkSys _ w (sent s ++ [(url, params)]) (effects s)).

(** ** The analysis client *)

Definition api_url : string := "https://stockfish.online/api/s/v2.php".

(** The [try] block once [requests.get] has answered: what it raises
    ([inl], a [RequestException] by its [str()]) or returns ([inr]). *)
Definition try_response `{Requests} (response : Response) : string + Json :=
  match raise_for_status response with
  | Some e => inl e
  | None =>
      if negb (truthy (strip (text response)))
      then inr (error_dict "Empty response from API")
      else
        match response_json (text response) with
        | Some payload => inr payload
        | None => inr (error_dict "Invalid JSON response")
        end
  end.

Definition analyze_with_stockfish_api `{Requests} (fen : string) (depth : Z) : M Json :=
  let depth := if depth >=? 16 then 15 else depth in
  let params := mkParams fen depth in
  let* outcome := http_get api_url params in
  let attempt :=
    match outcome with
    | GetRaises e => inl e
    | GetReturns response => try_response response
    end in
  match attempt with
  | inr result => ret result
  | inl e => ret (error_dict ("Request failed: " +:+ e))
  end.

(** ** Replaying a game *)

(** A [chess.pgn.Game]: its headers, its starting board [game.board()] and
    its main line. *)
Record Game `{ChessLib} : Type := mkGame {
  headers : gmap string string;
  game_board : Board;
  mainline_moves : list Move
}.

(** The body of [for move in game.mainline_moves()], with the loop's
    variables [board], [move_counter] and [game_data] as accumulators. *)
Fixpoint for_moves `{ChessLib} `{Requests} (moves : list Move) (board : Board)
    (move_counter : Z) (game_data : list MoveRecord) : M (list MoveRecord) :=
  match moves with
  | [] => ret game_data
  | move :: rest =>
      let* board := lift_sum (push board move) in
      let move_counter := move_counter + 1 in
      let player := if bool_decide (move_counter `mod` 2 = 1) then "White" else "Black" in
      let current_fen := board_fen board in
      let* stockfish_output := analyze_with_stockfish_api current_fen 15 in
      let move_data :=
        mkMoveRecord move_counter player (move_uci move) current_fen stockfish_output in
      for_moves rest board move_counter (game_data ++ [move_data])
  end.

Definition process_game_moves_and_analyze `{ChessLib} `{Requests} (game : Game)
    : M (list MoveRecord) :=
  for_moves (mainline_moves game) (game_board game) 0 [].

(** ** The drivers *)

(** What [open] and [chess.pgn.read_game] find at [game{i}.pgn]. *)
Inductive PgnFile `{ChessLib} : Type :=
| NoSuchFile
| EmptyPgn
| PgnGame (game : Game).

(** [for i in range(...)]: the bodies in order, stopping at a raise. *)
Fixpoint for_range `{Requests} (body : Z → M unit) (range : list Z) : M unit :=
  match range with
  | [] => ret tt
  | i :: rest => body i >> for_range body rest
  end.

(** [headers.get(key, fallback)]. *)
Definition headers_get (h : gmap string string) (key fallback : string) : string :=
  default fallback (h !! key).

Module pgn_to_JSON.

Definition game_metadata `{ChessLib} (game : Game) : list (string * string) :=
  [ ("Event", headers_get (headers game) "Event" "Unknown Event");
    ("White", headers_get (headers game) "White" "Unknown Player");
    ("Black", headers_get (headers game) "Black" "Unknown Player");
    ("Result", headers_get (headers game) "Result" "Unknown Result");
    ("WhiteElo", headers_get (headers game) "WhiteElo" "Unknown Elo");
    ("BlackElo", headers_get (headers game) "BlackElo" "Unknown Elo");
    ("WhiteRatingDiff", headers_get (headers game) "WhiteRatingDiff" "Unknown Diff");
    ("BlackRatingDiff", headers_get (headers game) "BlackRatingDiff" "Unknown Diff");
    ("ECO", headers_get (headers game) "ECO" "Unknown ECO");
    ("Opening", headers_get (headers game) "Opening" "Unknown Opening");
    ("Termination", headers_get (headers game) "Termination" "Unknown Termination");
    ("Round", headers_get (headers game) "Round" "Unknown Round") ].

(** The body of [for i in range(1, 21)]: [open] raises on a missing file,
    an empty file is skipped, a game is replayed, analysed and dumped to
    [processed_game{i}.json].  (Creating the output folder is left out.) *)
Definition game_step `{ChessLib} `{Requests} (dataset_folder : Z → PgnFile) (i : Z)
    : M unit :=
  match dataset_folder i with
  | NoSuchFile => raise (FileNotFoundError i)
  | EmptyPgn => emit (PrintSkipping i)
  | PgnGame game =>
      let game_metadata := game_metadata game in
      let* game_moves_data := process_game_moves_and_analyze game in
      let game_data := mkGameData game_metadata game_moves_data in
      emit (JsonDumpGame i game_data) >>
      emit (PrintSaved i)
  end.

Definition parse_pgn_and_generate_json `{ChessLib} `{Requests}
    (dataset_folder : Z → PgnFile) : M unit :=
  for_range (game_step dataset_folder) (seqZ 1 20).

End pgn_to_JSON.

Module pgn_to_JSON_converter.

Definition game_metadata `{ChessLib} (game : Game) : list (string * string) :=
  [ ("Event", headers_get (headers game) "Event" "?");
    ("White", headers_get (headers game) "White" "?");
    ("Black", headers_get (headers game) "Black" "?");
    ("Result", headers_get (headers game) "Result" "?");
    ("WhiteElo", headers_get (headers game) "WhiteElo" "?");
    ("BlackElo", headers_get (headers game) "BlackElo" "?");
    ("WhiteRatingDiff", headers_get (headers game) "WhiteRatingDiff" "?");
    ("BlackRatingDiff", headers_get (headers game) "BlackRatingDiff" "?");
    ("ECO", headers_get (headers game) "ECO" "?");
    ("Opening", headers_get (headers game) "Opening" "?");
    ("Termination", headers_get (headers game) "Termination" "?");
    ("Round", headers_get (headers game) "Round" "?") ].

(** The body of [for i in range(6, 21)]: as in [pgn_to_JSON.py], with the
    ["?"] fallbacks and the pause after a saved game of even index. *)
Definition game_step `{ChessLib} `{Requests} (dataset_folder : Z → PgnFile) (i : Z)
    : M unit :=
  match dataset_folder i with
  | NoSuchFile => raise (FileNotFoundError i)
  | EmptyPgn => emit (PrintSkipping i)
  | PgnGame game =>
      let game_metadata := game_metadata game in
      let* game_moves_data := process_game_moves_and_analyze game in
      let game_data := mkGameData game_metadata game_moves_data in
      emit (JsonDumpGame i game_data) >>
      emit (PrintSaved i) >>
      if bool_decide (i `mod` 2 = 0)
      then emit PrintPausing >> emit (Sleep 60)
      else ret tt
  end.

Definition parse_pgn_and_generate_json `{ChessLib} `{Requests}
    (dataset_folder : Z → PgnFile) : M unit :=
  for_range (game_step dataset_folder) (seqZ 6 15).

End pgn_to_JSON_converter.

Module pgn_data_extractor.

Definition game_metadata `{ChessLib} (game : Game) : list (string * string) :=
  [ ("Event", headers_get (headers game) "Event" "Unknown Event");
    ("White", headers_get (headers game) "White" "Unknown Player");
    ("Black", headers_get (headers game) "Black" "Unknown Player");
    ("Result", headers_get (headers game) "Result" "Unknown Result") ].

(** The [while True] loop: [pgn_file] holds the games [read_game] will
    still return before it returns [None] (the file is taken to exist). *)
Fixpoint read_games `{ChessLib} `{Requests} (pgn_file : list Game)
    (game_counter : Z) (games_data : list GameData) : M (list GameData) :=
  match pgn_file with
  | [] => emit PrintEndOfFile >> ret games_data
  | game :: rest =>
      let game_counter := game_counter + 1 in
      emit (PrintAnalyzing game_counter) >>
      let game_metadata := game_metadata game in
      let* game_moves_data := process_game_moves_and_analyze game in
      let game_data := mkGameData game_metadata game_moves_data in
      read_games rest game_counter (games_data ++ [game_data])
  end.

Definition parse_pgn_and_generate_json `{ChessLib} `{Requests}
    (pgn_file : list Game) : M unit :=
  let* games_data := read_games pgn_file 0 [] in
  emit (JsonDumpAll games_data) >>
  emit PrintAllSaved.

End pgn_data_extractor.

(** ** Observations used by the statements *)

(** The first exception [board.push] raises along a move list, if any. *)
Fixpoint replay_error `{ChessLib} (board : Board) (moves : list Move) : option Exception :=
  match moves with
  | [] => None
  | move :: rest =>
      match push board move with
      | inl e => Some e
      | inr board => replay_error board rest
      end
  end.

(** The boards after each move, while the moves are accepted. *)
Fixpoint positions `{ChessLib} (board : Board) (moves : list Move) : list Board :=
  match moves with
  | [] => []
  | move :: rest =>
      match push board move with
      | inl _ => []
      | inr board => board :: positions board rest
      end
  end.

(** The depth that goes into the request. *)
Definition effective_depth (depth : Z) : Z := if depth >=? 16 then 15 else depth.

(** The side the scripts write for ply [k]. *)
Definition side_of_ply (k : Z) : string := if Z.odd k then "White" else "Black".

(** Whitespace only: what [not response.text.strip()] tests. *)
Fixpoint all_space (s : string) : bool :=
  match s with
  | EmptyString => true
  | String c rest => isspace c && all_space rest
  end.

(** The cause of a transport failure, when the outcome is one: the request
    raised, or the status is an HTTP error. *)
Definition transport_failure `{Requests} (outcome : GetOutcome) : option string :=
  match outcome with
  | GetRaises e => Some e
  | GetReturns response => raise_for_status response
  end.

(** The four results of the client, in the order they are decided. *)
Inductive client_result `{Requests} : GetOutcome → Json → Prop :=
| result_transport_failure outcome cause :
    transport_failure outcome = Some cause →
    client_result outcome (error_dict ("Request failed: " +:+ cause))
| result_empty_response response :
    transport_failure (GetReturns response) = None →
    all_space (text response) = true →
    client_result (GetReturns response) (error_dict "Empty response from API")
| result_malformed_response response :
    transport_failure (GetReturns response) = None →
    all_space (text response) = false →
    response_json (text response) = None →
    client_result (GetReturns response) (error_dict "Invalid JSON response")
| result_success response payload :
    transport_failure (GetReturns response) = None →
    all_space (text response) = false →
    response_json (text response) = Some payload →
    client_result (GetReturns response) payload.

(** What the client did for a record: it answered a depth-15 request for the
    record's position from some state of the service. *)
Definition analysed `{Requests} (r : MoveRecord) : Prop :=
  ∃ w, client_result (requests_get w api_url (mkParams (FEN r) 15)).1 (Stockfish_Analysis r).

(** The request for a position. *)
Definition request_for `{ChessLib} (b : Board) : string * Params :=
  (api_url, mkParams (board_fen b) 15).

(** A client whose answers do not depend on the state of the service. *)
Definition deterministic_client `{Requests} : Prop :=
  ∀ (w1 w2 : World) url params,
    (requests_get w1 url params).1 = (requests_get w2 url params).1.

(** The game a file index belongs to, for the effects that name one. *)
Definition effect_index (e : Effect) : option Z :=
  match e with
  | JsonDumpGame i _ | PrintSkipping i | PrintSaved i => Some i
  | _ => None
  end.



(** A file the driver gets through: it exists, and its game replays. *)
Definition readable `{ChessLib} (file : PgnFile) : Prop :=
  match file with
  | NoSuchFile => False
  | EmptyPgn => True
  | PgnGame game => replay_error (game_board game) (mainline_moves game) = None
  end.

Definition holds_game `{ChessLib} (file : PgnFile) : bool :=
  match file with PgnGame _ => true | _ => false end.

(** The keys both folder drivers write, and the fallback of each. *)
Definition recognized_keys : list string :=
  [ "Event"; "White"; "Black"; "Result"; "WhiteElo"; "BlackElo";
    "WhiteRatingDiff"; "BlackRatingDiff"; "ECO"; "Opening"; "Termination";
    "Round" ].

(** A dictionary literal read by key. *)
Fixpoint dict_lookup {V} (d : list (string * V)) (key : string) : option V :=
  match d with
  | [] => None
  | (k, v) :: rest => if String.eqb k key then Some v else dict_lookup rest key
  end.

(** The fallbacks [pgn_to_JSON.py] passes to [headers.get], by key. *)
Definition placeholders_pgn_to_JSON : list (string * string) :=
  [ ("Event", "Unknown Event"); ("White", "Unknown Player");
    ("Black", "Unknown Player"); ("Result", "Unknown Result");
    ("WhiteElo", "Unknown Elo"); ("BlackElo", "Unknown Elo");
    ("WhiteRatingDiff", "Unknown Diff"); ("BlackRatingDiff", "Unknown Diff");
    ("ECO", "Unknown ECO"); ("Opening", "Unknown Opening");
    ("Termination", "Unknown Termination"); ("Round", "Unknown Round") ].

(** Two states that differ at most in the state of the service. *)
Definition agree `{Requests} (s1 s2 : Sys) : Prop :=
  sent s1 = sent s2 ∧ effects s1 = effects s2.

(** A computation whose result, requests and effects do not depend on the
    state of the service. *)
Definition stable `{Requests} {A} (m : M A) : Prop :=
  ∀ s1 s2, agree s1 s2 → (m s1).1 = (m s2).1 ∧ agree (m s1).2 (m s2).2.

(** ** Small libraries to run the scripts on *)

(** A board is the side to move at the start and the moves played; move [0]
    is the one the board rejects. *)
Definition toy_move_uci (m : nat) : string :=
  match m with
  | 1%nat => "e2e4"
  | 2%nat => "e7e5"
  | 3%nat => "g1f3"
  | _ => "0000"
  end.

Definition toy_push (b : bool * list nat) (m : nat) : Exception + (bool * list nat) :=
  match m with
  | O => inl (IllegalMoveError "illegal move")
  | _ => inr (b.1, b.2 ++ [m])
  end.

Definition toy_fen (b : bool * list nat) : string :=
  foldr (λ m acc, toy_move_uci m +:+ " " +:+ acc) (if b.1 then "w" else "b") b.2.

Instance toy_chess : ChessLib := {|
  Board := bool * list nat;
  Move := nat;
  push := toy_push;
  board_turn := λ b, if Nat.even (length b.2) then b.1 else negb b.1;
  board_fen := toy_fen;
  move_uci := toy_move_uci
|}.

(** A service that is never reached. *)
Instance net_down : Requests := {|
  World := unit;
  requests_get := λ w _ _, (GetRaises "Connection refused", w);
  response_json := λ _, None;
  http_error_str := λ _, "HTTP error"
|}.

(** A service that answers every request with status [status] and the
    position as body, counting the requests; the parser knows one body. *)
Definition echo_json (body : string) : option Json :=
  if bool_decide (body = "{}") then Some (JDict []) else Some (JStr body).

Definition net_echo (status : Z) : Requests := {|
  World := nat;
  requests_get := λ w _ params, (GetReturns (mkResponse status (param_fen params)), S w);
  response_json := echo_json;
  http_error_str := λ _, "HTTP error"
|}.

Definition toy_game (side : bool) (moves : list nat) : @Game toy_chess :=
  mkGame _ ∅ (side, []) moves.

Definition start `{Requests} (w : World) : Sys := mkSys _ w [] [].

(** A game whose headers only name the white player. *)
Definition white_only : @Game toy_chess :=
  mkGame toy_chess {["White" := "Carlsen"]} (true, []) [].

(** A folder for the converter: games without moves at 6..10, empty files
    after. *)
Definition five_games (i : Z) : @PgnFile toy_chess :=
  if bool_decide (6 ≤ i ≤ 10) then PgnGame (toy_game true [])
  else EmptyPgn.

(** A folder for [pgn_to_JSON.py]: game 2 has an illegal second move, every
    other game is a single legal move. *)
Definition corrupt_second (i : Z) : @PgnFile toy_chess :=
  if bool_decide (i = 2) then PgnGame (toy_game true [1; 0; 3]%nat)
  else PgnGame (toy_game true [1%nat]).

(** ** The CSV summary, [csv_file_generator.py] *)

Module csv_file_generator.

(** What the run prints. *)
Inductive Message : Type :=
| PrintErrorReading (i : Z)
| PrintCreated.

(** The file under construction: the rows given to [writer.writerow]
    (oldest first) and the messages printed (oldest first). *)
Record Output : Type := mkOutput {
  rows : list (list string);
  printed : list Message
}.

Definition header_row : list string :=
  ["gameNumber"; "game heading"; "discussion"; "link to game"].

(** The characters [' '] and ['+']. *)
Definition space : Ascii.ascii := Ascii.ascii_of_nat 32.
Definition plus : Ascii.ascii := Ascii.ascii_of_nat 43.

(** [site.replace(' ', '+')]. *)
Fixpoint replace_spaces (s : string) : string :=
  match s with
  | EmptyString => EmptyString
  | String c rest =>
      String (if Ascii.eqb c space then plus else c) (replace_spaces rest)
  end.

(** The row written for [game{i}.pgn], from the headers of its game. *)
Definition game_row `{ChessLib} (i : Z) (game : Game) : list string :=
  let game_number := "game" +:+ pretty i in
  let white_player := headers_get (headers game) "White" "N/A" in
  let black_player := headers_get (headers game) "Black" "N/A" in
  let event := headers_get (headers game) "Event" "N/A" in
  let site := headers_get (headers game) "Site" "Unknown" in
  let game_heading :=
    white_player +:+ " vs. " +:+ black_player +:+ " (" +:+ event +:+ ")" in
  let result := headers_get (headers game) "Result" "N/A" in
  let white_elo := headers_get (headers game) "WhiteElo" "N/A" in
  let black_elo := headers_get (headers game) "BlackElo" "N/A" in
  let white_rating_diff := headers_get (headers game) "WhiteRatingDiff" "N/A" in
  let black_rating_diff := headers_get (headers game) "BlackRatingDiff" "N/A" in
  let eco := headers_get (headers game) "ECO" "N/A" in
  let opening := headers_get (headers game) "Opening" "N/A" in
  let discussion :=
    "Result: " +:+ result +:+ ". White's Elo: " +:+ white_elo +:+ " (Change: "
    +:+ white_rating_diff +:+ "), " +:+ "Black's Elo: " +:+ black_elo
    +:+ " (Change: " +:+ black_rating_diff +:+ "). " +:+ "ECO: " +:+ eco
    +:+ ", Opening: " +:+ opening +:+ "." in
  let link_to_game :=
    "https://www.google.com/maps/search/" +:+ replace_spaces site in
  [game_number; game_heading; discussion; link_to_game].

(** The body of [for i in range(1, 21)]: a file that does not exist is
    passed over; reading [game.headers] of an empty file ([game] is [None])
    raises inside the [try], and the handler prints; a game gives a row. *)
Definition file_step `{ChessLib} (pgn_files_directory : Z → PgnFile)
    (out : Output) (i : Z) : Output :=
  match pgn_files_directory i with
  | NoSuchFile => out
  | EmptyPgn => mkOutput (rows out) (printed out ++ [PrintErrorReading i])
  | PgnGame game => mkOutput (rows out ++ [game_row i game]) (printed out)
  end.

Definition extract_game_details `{ChessLib} (pgn_files_directory : Z → PgnFile)
    : Output :=
  let out := mkOutput [header_row] [] in
  let out := foldl (file_step pgn_files_directory) out (seqZ 1 20) in
  mkOutput (rows out) (printed out ++ [PrintCreated]).

End csv_file_generator.

(** ** More observations *)

(** The games a trace dumps, with their file indices, in order. *)
Definition dumped_games (trace : list Effect) : list (Z * GameData) :=
  omap (λ ev, match ev with JsonDumpGame i data => Some (i, data) | _ => None end) trace.

(** The lengths of the pauses of a trace, in order. *)
Definition sleeps (trace : list Effect) : list Z :=
  omap (λ ev, match ev with Sleep seconds => Some seconds | _ => None end) trace.

(** The collections a trace dumps in one piece, in order. *)
Definition dumped_collections (trace : list Effect) : list (list GameData) :=
  omap (λ ev, match ev with JsonDumpAll games => Some games | _ => None end) trace.

(** A game the board accepts to the end. *)
Definition replayable `{ChessLib} (game : Game) : Prop :=
  replay_error (game_board game) (mainline_moves game) = None.

(** The keys [pgn_data_extractor.py] writes. *)
Definition extractor_keys : list string := ["Event"; "White"; "Black"; "Result"].

(** What a dumped game record must be for a game: its metadata under the
    given reading of the headers, and one move record per move. *)
Definition record_of `{ChessLib} (metadata : Game → list (string * string))
    (game : Game) (data : GameData) : Prop :=
  Metadata data = metadata game
  ∧ Move_uci <$> Moves data = move_uci <$> mainline_moves game.

(** The game of a file, when it holds one. *)
Definition game_of `{ChessLib} (file : PgnFile) : option Game :=
  match file with PgnGame game => Some game | _ => None end.

(** A file that exists and holds no game. *)
Definition empty_file `{ChessLib} (file : PgnFile) : bool :=
  match file with EmptyPgn => true | _ => false end.

(** Whether a character occurs in a string. *)
Fixpoint occurs (c : Ascii.ascii) (s : string) : bool :=
  match s with
  | EmptyString => false
  | String c' rest => Ascii.eqb c' c || occurs c rest
  end.

(** The requests a file asks for: one per position of its game. *)
Definition requests_of `{ChessLib} (file : PgnFile) : list (string * Params) :=
  match file with
  | PgnGame game => request_for <$> positions (game_board game) (mainline_moves game)
  | _ => []
  end.

(** The number of moves a file holds. *)
Definition moves_of `{ChessLib} (file : PgnFile) : nat :=
  match file with
  | PgnGame game => length (mainline_moves game)
  | _ => 0%nat
  end.

(** A game played in a city with spaces in its name. *)
Definition new_york_game : @Game toy_chess :=
  mkGame toy_chess {["Site" := "New York City"]} (true, []) [].

(** The folder [five_games] with the first file taken away. *)
Definition five_games_less (i : Z) : @PgnFile toy_chess :=
  if bool_decide (i = 1) then NoSuchFile else five_games i.

(** A folder of twenty games, the third without a file. *)
Definition third_missing (i : Z) : @PgnFile toy_chess :=
  if bool_decide (i = 3) then NoSuchFile else PgnGame (toy_game true [1%nat]).

(** A folder with a game at every index. *)
Definition all_games (i : Z) : @PgnFile toy_chess := PgnGame (toy_game true [1; 2]%nat).

(** A folder for the summary: a game at 1, an empty file at 2, a game at 4,
    no file elsewhere. *)
Definition sparse_folder (i : Z) : @PgnFile toy_chess :=
  if bool_decide (i = 1) then PgnGame white_only
  else if bool_decide (i = 2) then EmptyPgn
  else if bool_decide (i = 4)
  then PgnGame (mkGame toy_chess {["Site" := "New York City"]} (true, []) [])
  else NoSuchFile.

(** ** Reading a game, [chess.pgn.read_game] *)

(** The tag roster a [chess.pgn.Game] starts with: [chess.pgn.Headers()]
    holds these seven tags before any tag of the file is read. *)
Definition tag_roster : gmap string string :=
  list_to_map
    [ ("Event", "?"); ("Site", "?"); ("Date", "????.??.??"); ("Round", "?");
      ("White", "?"); ("Black", "?"); ("Result", "*") ].

(** The text of one game in a PGN file: its tag pairs, the board its
    movetext starts from, and the moves of its main line as written. *)
Record PgnText `{ChessLib} : Type := mkPgnText {
  tags : gmap string string;
  start_board : Board;
  movetext : list Move
}.

(** The moves the parser keeps: it plays each move of the movetext on its
    own board as it reads; at a move the board does not accept it notes
    the error in [game.errors] and skips the rest of the main line. *)
Fixpoint accepted_prefix `{ChessLib} (board : Board) (moves : list Move) : list Move :=
  match moves with
  | [] => []
  | move :: rest =>
      match push board move with
      | inl _ => []
      | inr board => move :: accepted_prefix board rest
      end
  end.

(** [chess.pgn.read_game] on a game's text: the tags of the file over the
    tag roster, and the main line up to the first move the board rejects. *)
Definition read_game `{ChessLib} (pgn : PgnText) : Game :=
  mkGame _ (tags pgn ∪ tag_roster) (start_board pgn)
    (accepted_prefix (start_board pgn) (movetext pgn)).

(** What is on disk at [game{i}.pgn]. *)
Inductive PgnSource `{ChessLib} : Type :=
| SourceMissing
| SourceEmpty
| SourceText (pgn : PgnText).

(** What [open] and [read_game] make of a folder on disk. *)
Definition open_folder `{ChessLib} (sources : Z → PgnSource) (i : Z) : PgnFile :=
  match sources i with
  | SourceMissing => NoSuchFile
  | SourceEmpty => EmptyPgn
  | SourceText pgn => PgnGame (read_game pgn)
  end.

(** The text of a toy game without tags. *)
Definition toy_text (moves : list nat) : @PgnText toy_chess :=
  mkPgnText toy_chess ∅ (true, []) moves.

(** A folder on disk: the text of game 2 has an illegal second move, every
    other text is a single legal move. *)
Definition illegal_in_second (i : Z) : @PgnSource toy_chess :=
  if bool_decide (i = 2) then SourceText (toy_text [1; 0; 3]%nat)
  else SourceText (toy_text [1%nat]).

(** * Properties *)

(** ** [str.strip] leaves nothing exactly on whitespace *)

Lemma lstrip_empty s : lstrip s = "" ↔ all_space s = true.
Proof.
  induction s as [|c s IH]; simpl; [done|].
  destruct (isspace c); simpl; [exact IH|]. split; discriminate.
Qed.

Lemma all_space_lstrip s : all_space (lstrip s) = all_space s.
Proof.
  induction s as [|c s IH]; simpl; [done|].
  destruct (isspace c) eqn:Hc; simpl; [exact IH|]. by rewrite Hc.
Qed.

Lemma all_space_rev_app s1 s2 :
  all_space (String.rev_app s1 s2) = all_space s1 && all_space s2.
Proof.
  revert s2. induction s1 as [|c s1 IH]; intros s2; simpl; [done|].
  rewrite IH. simpl. destruct (isspace c), (all_space s1); done.
Qed.

Lemma all_space_rev s : all_space (String.rev s) = all_space s.
Proof. unfold String.rev. rewrite all_space_rev_app. simpl. apply andb_true_r. Qed.

Lemma rev_app_empty s1 s2 : String.rev_app s1 s2 = "" → s1 = "" ∧ s2 = "".
Proof.
  revert s2. induction s1 as [|c s1 IH]; intros s2; simpl; [done|].
  intros Hr. apply IH in Hr as [_ ?]. discriminate.
Qed.

Lemma strip_falsy s : negb (truthy (strip s)) = all_space s.
Proof.
  unfold strip. destruct (all_space s) eqn:Hs.
  - assert (lstrip s = "") as -> by by apply lstrip_empty. done.
  - destruct (String.rev (lstrip (String.rev (lstrip s)))) eqn:Hr; [|done].
    apply rev_app_empty in Hr as [Hr _]. apply lstrip_empty in Hr.
    rewrite all_space_rev, all_space_lstrip in Hr. congruence.
Qed.

(** ** One call of the client *)

Lemma try_response_result `{Requests} response :
  client_result (GetReturns response)
    match try_response response with
    | inr result => result
    | inl e => error_dict ("Request failed: " +:+ e)
    end.
Proof.
  unfold try_response. destruct (raise_for_status response) as [e|] eqn:Hst.
  - by apply result_transport_failure.
  - rewrite strip_falsy. destruct (all_space (text response)) eqn:Hsp.
    + by apply result_empty_response.
    + destruct (response_json (text response)) as [payload|] eqn:Hj.
      * by apply result_success.
      * by apply result_malformed_response.
Qed.

Lemma analyze_run `{Requests} fen depth s :
  let params := mkParams fen (effective_depth depth) in
  let answer := requests_get (world s) api_url params in
  ∃ result,
    analyze_with_stockfish_api fen depth s =
      (Ok result, mkSys _ answer.2 (sent s ++ [(api_url, params)]) (effects s))
    ∧ client_result answer.1 result.
Proof.
  intros params answer.
  unfold analyze_with_stockfish_api, bind, http_get.
  fold (effective_depth depth). fold params. fold answer.
  destruct answer as [[cause|response] w]; simpl.
  - eexists; split; [reflexivity|]. by apply result_transport_failure.
  - pose proof (try_response_result response) as Hr.
    destruct (try_response response); eexists; (split; [reflexivity|exact Hr]).
Qed.

Lemma client_result_functional `{Requests} outcome j1 j2 :
  client_result outcome j1 → client_result outcome j2 → j1 = j2.
Proof.
  intros H1 H2. destruct H1; inversion H2; subst; congruence.
Qed.

(** ** One game *)

Lemma for_moves_cons `{ChessLib} `{Requests} move rest board c acc s :
  for_moves (move :: rest) board c acc s =
    match push board move with
    | inl e => (Raise e, s)
    | inr b =>
        match analyze_with_stockfish_api (board_fen b) 15 s with
        | (Ok out, s') =>
            for_moves rest b (c + 1)
              (acc ++ [mkMoveRecord (c + 1)
                         (if bool_decide ((c + 1) `mod` 2 = 1) then "White" else "Black")
                         (move_uci move) (board_fen b) out]) s'
        | (Raise e, s') => (Raise e, s')
        end
    end.
Proof. simpl. unfold bind, lift_sum. destruct (push board move); reflexivity. Qed.

Lemma parity_test k : (if bool_decide (k `mod` 2 = 1) then "White" else "Black") = side_of_ply k.
Proof.
  unfold side_of_ply. rewrite Zmod_odd.
  destruct (Z.odd k); by case_bool_decide.
Qed.

Lemma for_moves_accepted `{ChessLib} `{Requests} moves :
  ∀ board c acc s,
    replay_error board moves = None →
    ∃ recs s',
      for_moves moves board c acc s = (Ok (acc ++ recs), s')
      ∧ effects s' = effects s
      ∧ sent s' = sent s ++ (request_for <$> positions board moves)
      ∧ Move_Number <$> recs = seqZ (c + 1) (Z.of_nat (length moves))
      ∧ Player <$> recs = side_of_ply <$> seqZ (c + 1) (Z.of_nat (length moves))
      ∧ Move_uci <$> recs = move_uci <$> moves
      ∧ FEN <$> recs = board_fen <$> positions board moves
      ∧ Forall analysed recs.
Proof.
  induction moves as [|move rest IH]; intros board c acc s Hacc.
  - exists [], s. simpl. rewrite !app_nil_r. by repeat split.
  - rewrite for_moves_cons. cbn [replay_error positions length] in Hacc |- *.
    destruct (push board move) as [e|b]; [done|].
    destruct (analyze_run (board_fen b) 15 s) as (out & -> & Hout).
    match goal with
    | |- context [for_moves rest b (c + 1) (acc ++ [?r0]) ?st] =>
        set (r := r0);
        destruct (IH b (c + 1) (acc ++ [r]) st Hacc)
          as (recs & s' & -> & Heff & Hsent & Hnum & Hside & Huci & Hfen & Han)
    end.
    exists (r :: recs), s'. rewrite <- app_assoc.
    rewrite Nat2Z.inj_succ, seqZ_cons by lia.
    rewrite Z.pred_succ. replace (Z.succ (c + 1)) with (c + 1 + 1) by lia.
    rewrite !fmap_cons, Hnum, Hside, Huci, Hfen, Hsent, Heff.
    subst r. cbn [Move_Number Player Move_uci FEN sent effects].
    rewrite parity_test, <- app_assoc.
    repeat split; try done.
    constructor; [|done]. exists (world s). exact Hout.
Qed.

Lemma for_moves_rejected `{ChessLib} `{Requests} moves :
  ∀ board c acc s e,
    replay_error board moves = Some e →
    ∃ s', for_moves moves board c acc s = (Raise e, s') ∧ effects s' = effects s.
Proof.
  induction moves as [|move rest IH]; intros board c acc s e Hrej; [done|].
  rewrite for_moves_cons. simpl in Hrej.
  destruct (push board move) as [e'|b].
  - exists s. by simplify_eq.
  - destruct (analyze_run (board_fen b) 15 s) as (out & -> & _).
    match goal with
    | |- context [for_moves rest b (c + 1) ?a ?st] =>
        destruct (IH b (c + 1) a st e Hrej) as (s' & -> & Heff)
    end.
    by exists s'.
Qed.

Lemma process_accepted `{ChessLib} `{Requests} (game : Game) (s : Sys) :
  replay_error (game_board game) (mainline_moves game) = None →
  ∃ recs s',
    process_game_moves_and_analyze game s = (Ok recs, s')
    ∧ effects s' = effects s
    ∧ sent s' = sent s ++ (request_for <$> positions (game_board game) (mainline_moves game))
    ∧ Move_Number <$> recs = seqZ 1 (Z.of_nat (length (mainline_moves game)))
    ∧ Player <$> recs = side_of_ply <$> seqZ 1 (Z.of_nat (length (mainline_moves game)))
    ∧ Move_uci <$> recs = move_uci <$> mainline_moves game
    ∧ FEN <$> recs = board_fen <$> positions (game_board game) (mainline_moves game)
    ∧ Forall analysed recs.
Proof.
  intros Hacc. unfold process_game_moves_and_analyze.
  destruct (for_moves_accepted _ _ 0 [] s Hacc) as (recs & s' & Hrun & Hrest).
  exists recs, s'. split; [exact Hrun | exact Hrest].
Qed.

Lemma lookup_field {A} (f : MoveRecord → A) recs (l : list A) k r :
  f <$> recs = l → recs !! k = Some r → l !! k = Some (f r).
Proof. intros <- Hk. by rewrite list_lookup_fmap, Hk. Qed.

(** C1: a game whose N moves the board accepts yields exactly N records, one
    per move and in move order, and the ["Move Number"] of the record at
    position k (from 0) is k + 1: the numbers are 1..N, strictly increasing,
    nothing merged and nothing dropped. *)
Theorem C1_one_record_per_move `{ChessLib} `{Requests} (game : Game) (s : Sys) :
  replay_error (game_board game) (mainline_moves game) = None →
  ∃ recs s',
    process_game_moves_and_analyze game s = (Ok recs, s')
    ∧ length recs = length (mainline_moves game)
    ∧ Move_Number <$> recs = seqZ 1 (Z.of_nat (length (mainline_moves game)))
    ∧ Move_uci <$> recs = move_uci <$> mainline_moves game
    ∧ FEN <$> recs = board_fen <$> positions (game_board game) (mainline_moves game)
    ∧ (∀ k r, recs !! k = Some r → Move_Number r = Z.of_nat k + 1)
    ∧ (∀ i j ri rj, (i < j)%nat → recs !! i = Some ri → recs !! j = Some rj →
         Move_Number ri < Move_Number rj).
Proof.
  intros Hacc.
  destruct (process_accepted game s Hacc)
    as (recs & s' & Hrun & _ & _ & Hnum & _ & Huci & Hfen & _).
  assert (∀ k r, recs !! k = Some r → Move_Number r = Z.of_nat k + 1) as Hk.
  { intros k r Hr. apply (lookup_field Move_Number _ _ _ _ Hnum) in Hr.
    apply lookup_seqZ in Hr as [-> _]. lia. }
  exists recs, s'. repeat split; try done.
  - apply (f_equal length) in Huci. by rewrite !length_fmap in Huci.
  - intros i j ri rj Hij Hi Hj. rewrite (Hk _ _ Hi), (Hk _ _ Hj). lia.
Qed.

(** C2: in a game the board accepts, the ["Player"] of ply k is "White" when
    k is odd and "Black" when k is even, whatever the starting board (and so
    whatever side it has to move): ply 1 is White and neighbours differ. *)
Theorem C2_sides_alternate `{ChessLib} `{Requests} (game : Game) (s : Sys) :
  replay_error (game_board game) (mainline_moves game) = None →
  ∃ recs s',
    process_game_moves_and_analyze game s = (Ok recs, s')
    ∧ length recs = length (mainline_moves game)
    ∧ (∀ k r, recs !! k = Some r →
         Move_Number r = Z.of_nat k + 1
         ∧ Player r = if Z.odd (Z.of_nat k + 1) then "White" else "Black")
    ∧ (∀ r, recs !! 0%nat = Some r → Player r = "White")
    ∧ (∀ k r r', recs !! k = Some r → recs !! S k = Some r' → Player r ≠ Player r').
Proof.
  intros Hacc.
  destruct (process_accepted game s Hacc)
    as (recs & s' & Hrun & _ & _ & Hnum & Hside & Huci & _ & _).
  assert (∀ k r, recs !! k = Some r → Player r = side_of_ply (Z.of_nat k + 1)) as Hk.
  { intros k r Hr. apply (lookup_field Player _ _ _ _ Hside) in Hr.
    rewrite list_lookup_fmap in Hr.
    destruct (seqZ 1 (Z.of_nat (length (mainline_moves game))) !! k) as [n|] eqn:Hn;
      [|done].
    apply lookup_seqZ in Hn as [-> _]. injection Hr as <-.
    f_equal. lia. }
  exists recs, s'. split; [done|]. split; [|split; [|split]].
  - apply (f_equal length) in Huci. by rewrite !length_fmap in Huci.
  - intros k r Hr. split; [|by apply Hk].
    apply (lookup_field Move_Number _ _ _ _ Hnum) in Hr.
    apply lookup_seqZ in Hr as [-> _]. lia.
  - intros r Hr. by rewrite (Hk _ _ Hr).
  - intros k r r' Hr Hr'. rewrite (Hk _ _ Hr), (Hk _ _ Hr'). unfold side_of_ply.
    replace (Z.of_nat (S k) + 1) with (Z.succ (Z.of_nat k + 1)) by lia.
    rewrite Z.odd_succ, <- Z.negb_odd.
    by destruct (Z.odd (Z.of_nat k + 1)).
Qed.

(** ** The client *)

(** C4, as amended: the client never raises and returns exactly one of four
    results, decided in this order: on a transport failure (the request
    raised, or the status is a 4xx or 5xx error) the dictionary
    [{"error": "Request failed: <cause>"}]; otherwise, on a body that is
    whitespace only, [{"error": "Empty response from API"}]; otherwise, on
    a body that does not parse, [{"error": "Invalid JSON response"}];
    otherwise the parsed body, unchanged. *)
Theorem C4_client_four_results `{Requests} (fen : string) (depth : Z) (s : Sys) :
  let answer := requests_get (world s) api_url (mkParams fen (effective_depth depth)) in
  ∃ result s',
    analyze_with_stockfish_api fen depth s = (Ok result, s')
    ∧ client_result answer.1 result
    ∧ (∀ other, client_result answer.1 other → other = result)
    ∧ match answer.1 with
      | GetRaises cause => result = error_dict ("Request failed: " +:+ cause)
      | GetReturns response =>
          if bool_decide (400 ≤ status_code response < 600)
          then result = error_dict ("Request failed: " +:+ http_error_str response)
          else if all_space (text response)
          then result = error_dict "Empty response from API"
          else match response_json (text response) with
               | None => result = error_dict "Invalid JSON response"
               | Some payload => result = payload
               end
      end.
Proof.
  intros answer.
  destruct (analyze_run fen depth s) as (result & Hrun & Hres).
  fold answer in Hrun, Hres.
  exists result. eexists. split; [exact Hrun|]. split; [exact Hres|]. split.
  - intros other Hother. exact (client_result_functional _ _ _ Hother Hres).
  - destruct (answer.1) as [cause|response].
    + eapply client_result_functional; [exact Hres|].
      by apply result_transport_failure.
    + case_bool_decide as Hst.
      * eapply client_result_functional; [exact Hres|].
        apply result_transport_failure. simpl. unfold raise_for_status.
        by rewrite bool_decide_true.
      * assert (transport_failure (GetReturns response) = None) as Hok.
        { simpl. unfold raise_for_status. by rewrite bool_decide_false. }
        destruct (all_space (text response)) eqn:Hsp.
        { eapply client_result_functional; [exact Hres|].
          by apply result_empty_response. }
        destruct (response_json (text response)) as [payload|] eqn:Hj;
          (eapply client_result_functional; [exact Hres|]).
        -- by apply result_success.
        -- by apply result_malformed_response.
Qed.

(** C4, as stated, fails on a status that is neither 2xx nor an error: a
    300 answer with body [{}] is not a transport failure; its parsed body
    comes back as a success. *)
Lemma C4_status_300_is_no_failure :
  let s := @start (net_echo 300) 0%nat in
  (@requests_get (net_echo 300) (world s) api_url (mkParams "{}" 15)).1
    = GetReturns (mkResponse 300 "{}")
  ∧ ¬ (200 ≤ 300 < 300)
  ∧ (@analyze_with_stockfish_api (net_echo 300) "{}" 15 s).1 = Ok (JDict [])
  ∧ ∀ cause, JDict [] ≠ error_dict ("Request failed: " +:+ cause).
Proof.
  split; [reflexivity|]. split; [lia|]. split; [reflexivity|]. discriminate.
Qed.

(** C5: a requested depth of 16 or more goes out as 15 (so do 16, 20 and
    1000), and a requested depth of 10 goes out as 10. *)
Theorem C5_depth_clamped_to_15 `{Requests} (fen : string) (s : Sys) :
  (∀ depth, 16 ≤ depth →
     sent (analyze_with_stockfish_api fen depth s).2 = sent s ++ [(api_url, mkParams fen 15)])
  ∧ sent (analyze_with_stockfish_api fen 16 s).2 = sent s ++ [(api_url, mkParams fen 15)]
  ∧ sent (analyze_with_stockfish_api fen 20 s).2 = sent s ++ [(api_url, mkParams fen 15)]
  ∧ sent (analyze_with_stockfish_api fen 1000 s).2 = sent s ++ [(api_url, mkParams fen 15)]
  ∧ sent (analyze_with_stockfish_api fen 10 s).2 = sent s ++ [(api_url, mkParams fen 10)].
Proof.
  assert (∀ depth,
    sent (analyze_with_stockfish_api fen depth s).2
      = sent s ++ [(api_url, mkParams fen (effective_depth depth))]) as Hsent.
  { intros depth. destruct (analyze_run fen depth s) as (result & -> & _). done. }
  repeat split; try apply Hsent.
  intros depth Hd. rewrite Hsent. unfold effective_depth.
  destruct (Z.geb_spec depth 16); [done|lia].
Qed.

(** C10: a requested depth below 16 goes out as it is, zero and negative
    depths included; the client neither rejects it nor raises it. *)
Theorem C10_low_depth_unchanged `{Requests} (fen : string) (depth : Z) (s : Sys) :
  depth < 16 →
  ∃ result s',
    analyze_with_stockfish_api fen depth s = (Ok result, s')
    ∧ sent s' = sent s ++ [(api_url, mkParams fen depth)].
Proof.
  intros Hd. destruct (analyze_run fen depth s) as (result & Hrun & _).
  exists result. eexists. split; [exact Hrun|]. simpl.
  unfold effective_depth. destruct (Z.geb_spec depth 16); [lia|done].
Qed.

(** C6: when every request of a game meets a transport failure, every
    record of the game carries [{"error": "Request failed: <cause>"}], the
    game has its full count of records, and the driver saves it. *)
Theorem C6_transport_failure_keeps_game `{ChessLib} `{Requests}
    (game : Game) (s : Sys) :
  replay_error (game_board game) (mainline_moves game) = None →
  (∀ w url params, ∃ cause, transport_failure (requests_get w url params).1 = Some cause) →
  ∃ recs s',
    process_game_moves_and_analyze game s = (Ok recs, s')
    ∧ length recs = length (mainline_moves game)
    ∧ Forall (λ r, ∃ cause,
        Stockfish_Analysis r = error_dict ("Request failed: " +:+ cause)) recs
    ∧ ∀ dataset_folder i, dataset_folder i = PgnGame game →
        ∃ s'', pgn_to_JSON.game_step dataset_folder i s = (Ok tt, s'')
          ∧ effects s'' = effects s ++
              [JsonDumpGame i (mkGameData (pgn_to_JSON.game_metadata game) recs);
               PrintSaved i].
Proof.
  intros Hacc Hdown.
  destruct (process_accepted game s Hacc)
    as (recs & s' & Hrun & Heff & _ & _ & _ & Huci & _ & Han).
  exists recs, s'. split; [done|]. split; [|split].
  - apply (f_equal length) in Huci. by rewrite !length_fmap in Huci.
  - eapply Forall_impl; [exact Han|]. intros r [w Hr].
    destruct (Hdown w api_url (mkParams (FEN r) 15)) as [cause Hcause].
    exists cause. eapply client_result_functional; [exact Hr|].
    by apply result_transport_failure.
  - intros dataset_folder i Hi. unfold pgn_to_JSON.game_step. rewrite Hi.
    unfold bind. rewrite Hrun. unfold emit. simpl.
    eexists. split; [reflexivity|]. simpl. by rewrite Heff, <- app_assoc.
Qed.

(** ** Metadata *)

(** C8: in both folder drivers the metadata binds exactly the twelve
    recognized keys, and a recognized key the headers lack is bound to the
    fallback the driver passes for it: the "Unknown ..." string of that key
    in [pgn_to_JSON.py], "?" in [pgn_to_JSON_converter.py]. *)
Theorem C8_missing_header_gets_placeholder `{ChessLib} (game : Game) (key : string) :
  key ∈ recognized_keys →
  headers game !! key = None →
  ∃ fallback,
    dict_lookup placeholders_pgn_to_JSON key = Some fallback
    ∧ dict_lookup (pgn_to_JSON.game_metadata game) key = Some fallback
    ∧ dict_lookup (pgn_to_JSON_converter.game_metadata game) key = Some "?"
    ∧ (pgn_to_JSON.game_metadata game).*1 = recognized_keys
    ∧ (pgn_to_JSON_converter.game_metadata game).*1 = recognized_keys.
Proof.
  intros Hkey Hnone. unfold recognized_keys in Hkey.
  repeat (apply elem_of_cons in Hkey as [->|Hkey]);
    try (eexists; split; [reflexivity|];
         unfold pgn_to_JSON.game_metadata, pgn_to_JSON_converter.game_metadata;
         cbn [dict_lookup String.eqb Ascii.eqb Bool.eqb]; unfold headers_get;
         rewrite Hnone; by repeat split).
  by apply elem_of_nil in Hkey.
Qed.

(** ** The folder drivers *)

Lemma for_range_cons `{Requests} body i rest s :
  for_range body (i :: rest) s =
    match body i s with
    | (Ok _, s1) => for_range body rest s1
    | (Raise e, s1) => (Raise e, s1)
    end.
Proof. reflexivity. Qed.

Lemma process_rejected `{ChessLib} `{Requests} (game : Game) (s : Sys) e :
  replay_error (game_board game) (mainline_moves game) = Some e →
  ∃ s', process_game_moves_and_analyze game s = (Raise e, s') ∧ effects s' = effects s.
Proof. intros Hrej. by apply for_moves_rejected. Qed.

Section pgn_to_JSON_driver.
Context `{ChessLib} `{Requests} (dataset_folder : Z → PgnFile).

Local Notation "'step'" := (pgn_to_JSON.game_step dataset_folder).

Lemma step_rejected i game e s :
  dataset_folder i = PgnGame game →
  replay_error (game_board game) (mainline_moves game) = Some e →
  ∃ s', step i s = (Raise e, s') ∧ effects s' = effects s.
Proof.
  intros Hi Hrej. unfold pgn_to_JSON.game_step. rewrite Hi.
  destruct (process_rejected game s e Hrej) as (s' & Hrun & Heff).
  exists s'. unfold bind. by rewrite Hrun.
Qed.

Lemma step_readable i s :
  readable (dataset_folder i) →
  ∃ s' new, step i s = (Ok tt, s') ∧ effects s' = effects s ++ new
    ∧ Forall (λ ev, effect_index ev = Some i) new.
Proof.
  unfold pgn_to_JSON.game_step, readable.
  destruct (dataset_folder i) as [| |game]; [done| |].
  - intros _. eexists; exists [PrintSkipping i].
    split; [reflexivity|]. split; [done|]. by repeat constructor.
  - intros Hacc.
    destruct (process_accepted game s Hacc) as (recs & s' & Hrun & Heff & _).
    unfold bind. rewrite Hrun. unfold emit. simpl.
    eexists; eexists. split; [reflexivity|]. simpl. rewrite Heff, <- app_assoc.
    split; [reflexivity|]. by repeat constructor.
Qed.

Lemma step_trace i s :
  ∃ new, effects (step i s).2 = effects s ++ new
    ∧ Forall (λ ev, effect_index ev = Some i) new.
Proof.
  destruct (dataset_folder i) as [| |game] eqn:Hi.
  - exists []. unfold pgn_to_JSON.game_step. rewrite Hi. simpl.
    by rewrite app_nil_r.
  - destruct (step_readable i s) as (s' & new & -> & Heff & Hnew);
      [by rewrite Hi|]. by exists new.
  - destruct (replay_error (game_board game) (mainline_moves game)) as [e|] eqn:Hrep.
    + destruct (step_rejected i game e s Hi Hrep) as (s' & -> & Heff).
      exists []. simpl. by rewrite app_nil_r.
    + destruct (step_readable i s) as (s' & new & -> & Heff & Hnew);
        [by rewrite Hi|]. by exists new.
Qed.

End pgn_to_JSON_driver.

Lemma even_test i : bool_decide (i `mod` 2 = 0) = Z.even i.
Proof. rewrite Zmod_even. destruct (Z.even i); by case_bool_decide. Qed.


Section converter_driver.
Context `{ChessLib} `{Requests} (dataset_folder : Z → PgnFile).

Local Notation "'step'" := (pgn_to_JSON_converter.game_step dataset_folder).


End converter_driver.



(** ** Determinism *)

Section stability.
Context `{ChessLib} `{Requests}.

Lemma stable_ret {A} (a : A) : stable (ret a).
Proof. by intros s1 s2 Hs. Qed.

Lemma stable_raise {A} e : stable (raise (A:=A) e).
Proof. by intros s1 s2 Hs. Qed.

Lemma stable_emit ev : stable (emit ev).
Proof.
  intros s1 s2 [Hsent Heff]. split; [done|]. split; simpl; congruence.
Qed.

Lemma stable_bind {A B} (m : M A) (k : A → M B) :
  stable m → (∀ a, stable (k a)) → stable (bind m k).
Proof.
  intros Hm Hk s1 s2 Hs. unfold bind.
  destruct (Hm s1 s2 Hs) as [Hres Hnext].
  destruct (m s1) as [[a1|e1] t1], (m s2) as [[a2|e2] t2];
    simpl in Hres, Hnext; simplify_eq.
  - by apply Hk.
  - done.
Qed.

Lemma stable_lift_sum {A} (r : Exception + A) : stable (lift_sum r).
Proof. destruct r; [apply stable_raise | apply stable_ret]. Qed.

Hypothesis Hdet : deterministic_client.

Lemma stable_http_get url params : stable (http_get url params).
Proof.
  intros s1 s2 [Hsent Heff]. unfold http_get.
  pose proof (Hdet (world s1) (world s2) url params) as Hsame.
  destruct (requests_get (world s1) url params) as [o1 w1],
           (requests_get (world s2) url params) as [o2 w2].
  simpl in Hsame. subst o2. split; [done|]. split; simpl; congruence.
Qed.

Lemma stable_analyze fen depth : stable (analyze_with_stockfish_api fen depth).
Proof.
  unfold analyze_with_stockfish_api. apply stable_bind; [apply stable_http_get|].
  intros [cause|response]; [apply stable_ret|].
  destruct (try_response response); apply stable_ret.
Qed.

Lemma stable_for_moves moves :
  ∀ board c acc, stable (for_moves moves board c acc).
Proof.
  induction moves as [|move rest IH]; intros board c acc; simpl.
  - apply stable_ret.
  - apply stable_bind; [apply stable_lift_sum|]. intros b.
    apply stable_bind; [apply stable_analyze|]. intros out. apply IH.
Qed.

Lemma stable_process game : stable (process_game_moves_and_analyze game).
Proof. apply stable_for_moves. Qed.

Lemma stable_for_range body range :
  (∀ i, stable (body i)) → stable (for_range body range).
Proof.
  intros Hbody. induction range as [|i range IH]; simpl.
  - apply stable_ret.
  - apply stable_bind; [apply Hbody|]. by intros _.
Qed.

Lemma stable_pgn_to_JSON dataset_folder :
  stable (pgn_to_JSON.parse_pgn_and_generate_json dataset_folder).
Proof.
  apply stable_for_range. intros i. unfold pgn_to_JSON.game_step.
  destruct (dataset_folder i) as [| |game];
    [apply stable_raise | apply stable_emit |].
  apply stable_bind; [apply stable_process|]. intros recs.
  apply stable_bind; [apply stable_emit|]. intros _. apply stable_emit.
Qed.

Lemma stable_read_games pgn_file :
  ∀ game_counter games_data,
    stable (pgn_data_extractor.read_games pgn_file game_counter games_data).
Proof.
  induction pgn_file as [|game rest IH]; intros game_counter games_data; simpl.
  - apply stable_bind; [apply stable_emit|]. intros _. apply stable_ret.
  - apply stable_bind; [apply stable_emit|]. intros _.
    apply stable_bind; [apply stable_process|]. intros recs. apply IH.
Qed.

Lemma stable_pgn_data_extractor pgn_file :
  stable (pgn_data_extractor.parse_pgn_and_generate_json pgn_file).
Proof.
  apply stable_bind; [apply stable_read_games|]. intros games.
  apply stable_bind; [apply stable_emit|]. intros _. apply stable_emit.
Qed.
End stability.

(** C9: with a client whose answers do not depend on the state of the
    service, two runs over the same game give the same records (or the same
    exception), and two runs of a driver over the same input, started with
    the same output so far, dump the same game records in the same order,
    whatever state the service is in at the start of each run. *)
Theorem C9_runs_are_reproducible `{ChessLib} `{Requests}
    (game : Game) (pgn_file : list Game) (dataset_folder : Z → PgnFile)
    (s1 s2 : Sys) :
  deterministic_client →
  sent s1 = sent s2 →
  effects s1 = effects s2 →
  (process_game_moves_and_analyze game s1).1 = (process_game_moves_and_analyze game s2).1
  ∧ (pgn_data_extractor.parse_pgn_and_generate_json pgn_file s1).1
      = (pgn_data_extractor.parse_pgn_and_generate_json pgn_file s2).1
  ∧ effects (pgn_data_extractor.parse_pgn_and_generate_json pgn_file s1).2
      = effects (pgn_data_extractor.parse_pgn_and_generate_json pgn_file s2).2
  ∧ (pgn_to_JSON.parse_pgn_and_generate_json dataset_folder s1).1
      = (pgn_to_JSON.parse_pgn_and_generate_json dataset_folder s2).1
  ∧ effects (pgn_to_JSON.parse_pgn_and_generate_json dataset_folder s1).2
      = effects (pgn_to_JSON.parse_pgn_and_generate_json dataset_folder s2).2.
Proof.
  intros Hdet Hsent Heff.
  assert (agree s1 s2) as Hs by done.
  destruct (stable_process Hdet game s1 s2 Hs) as [Hgame _].
  destruct (stable_pgn_data_extractor Hdet pgn_file s1 s2 Hs) as [Hx [_ Hxe]].
  destruct (stable_pgn_to_JSON Hdet dataset_folder s1 s2 Hs) as [Hj [_ Hje]].
  done.
Qed.

(** ** The statements at concrete inputs *)

Lemma C1_three_moves_three_records :
  @replay_error toy_chess (true, []) [1; 2; 3]%nat = None
  ∧ ∃ recs s',
      @process_game_moves_and_analyze toy_chess net_down
        (toy_game true [1; 2; 3]%nat) (@start net_down tt) = (Ok recs, s')
      ∧ length recs = 3%nat
      ∧ Move_Number <$> recs = [1; 2; 3]
      ∧ Move_uci <$> recs = ["e2e4"; "e7e5"; "g1f3"].
Proof.
  split; [reflexivity|].
  destruct (@C1_one_record_per_move toy_chess net_down
              (toy_game true [1; 2; 3]%nat) (@start net_down tt) eq_refl)
    as (recs & s' & Hrun & Hlen & Hnum & Huci & _).
  exists recs, s'. repeat split; assumption.
Defined.

Lemma C2_black_to_move_still_white_first :
  @board_turn toy_chess (game_board (toy_game false [1; 2; 3]%nat)) = false
  ∧ @replay_error toy_chess (false, []) [1; 2; 3]%nat = None
  ∧ ∃ recs s',
      @process_game_moves_and_analyze toy_chess net_down
        (toy_game false [1; 2; 3]%nat) (@start net_down tt) = (Ok recs, s')
      ∧ (∀ r, recs !! 0%nat = Some r → Player r = "White")
      ∧ (∀ r, recs !! 1%nat = Some r → Player r = "Black").
Proof.
  split; [reflexivity|]. split; [reflexivity|].
  destruct (@C2_sides_alternate toy_chess net_down
              (toy_game false [1; 2; 3]%nat) (@start net_down tt) eq_refl)
    as (recs & s' & Hrun & _ & Hside & Hfirst & _).
  exists recs, s'. split; [assumption|]. split; [assumption|].
  intros r Hr. exact (proj2 (Hside 1%nat r Hr)).
Defined.

Lemma C5_depth_1000_goes_out_as_15 :
  16 ≤ 1000
  ∧ sent (@analyze_with_stockfish_api net_down "8/8/8/8/8/8/8/K6k w - - 0 1" 1000
            (@start net_down tt)).2
    = [] ++ [(api_url, mkParams "8/8/8/8/8/8/8/K6k w - - 0 1" 15)].
Proof.
  split; [lia|].
  apply (proj1 (@C5_depth_clamped_to_15 net_down "8/8/8/8/8/8/8/K6k w - - 0 1" (@start net_down tt))).
  lia.
Defined.

Lemma C10_depths_zero_and_minus_three :
  (0 < 16 ∧ ∃ result s',
     @analyze_with_stockfish_api net_down "fen" 0 (@start net_down tt) = (Ok result, s')
     ∧ sent s' = [] ++ [(api_url, mkParams "fen" 0)])
  ∧ (-3 < 16 ∧ ∃ result s',
     @analyze_with_stockfish_api net_down "fen" (-3) (@start net_down tt) = (Ok result, s')
     ∧ sent s' = [] ++ [(api_url, mkParams "fen" (-3))]).
Proof.
  split; (split; [lia|]).
  - apply (@C10_low_depth_unchanged net_down "fen" 0 (@start net_down tt)). lia.
  - apply (@C10_low_depth_unchanged net_down "fen" (-3) (@start net_down tt)). lia.
Defined.

Lemma C6_service_down_game_saved :
  @replay_error toy_chess (true, []) [1; 2; 3]%nat = None
  ∧ (∀ w url params,
       ∃ cause, @transport_failure net_down (@requests_get net_down w url params).1
                = Some cause)
  ∧ ∃ recs s',
      @process_game_moves_and_analyze toy_chess net_down
        (toy_game true [1; 2; 3]%nat) (@start net_down tt) = (Ok recs, s')
      ∧ length recs = 3%nat
      ∧ Forall (λ r, ∃ cause,
          Stockfish_Analysis r = error_dict ("Request failed: " +:+ cause)) recs.
Proof.
  assert (∀ w url params,
       ∃ cause, @transport_failure net_down (@requests_get net_down w url params).1
                = Some cause) as Hdown.
  { intros w url params. exists "Connection refused". reflexivity. }
  split; [reflexivity|]. split; [exact Hdown|].
  destruct (@C6_transport_failure_keeps_game toy_chess net_down
              (toy_game true [1; 2; 3]%nat) (@start net_down tt) eq_refl Hdown)
    as (recs & s' & Hrun & Hlen & Hall & _).
  exists recs, s'. repeat split; assumption.
Defined.

Lemma C8_event_missing :
  "Event" ∈ recognized_keys
  ∧ headers white_only !! "Event" = None
  ∧ dict_lookup (pgn_to_JSON.game_metadata white_only) "Event" = Some "Unknown Event"
  ∧ dict_lookup (pgn_to_JSON_converter.game_metadata white_only) "Event" = Some "?".
Proof.
  assert ("Event" ∈ recognized_keys) as Hkey by (apply elem_of_cons; by left).
  assert (headers white_only !! "Event" = None) as Hnone by reflexivity.
  split; [exact Hkey|]. split; [exact Hnone|].
  destruct (@C8_missing_header_gets_placeholder toy_chess white_only "Event" Hkey Hnone)
    as (fallback & Hfb & Hj & Hc & _).
  split; [|exact Hc]. rewrite Hj. exact (eq_sym Hfb).
Defined.


Lemma C9_echo_service_two_runs :
  @deterministic_client (net_echo 200)
  ∧ (@process_game_moves_and_analyze toy_chess (net_echo 200)
       (toy_game true [1; 2]%nat) (@start (net_echo 200) 0%nat)).1
    = (@process_game_moves_and_analyze toy_chess (net_echo 200)
       (toy_game true [1; 2]%nat) (@start (net_echo 200) 7%nat)).1
  ∧ effects (@pgn_data_extractor.parse_pgn_and_generate_json toy_chess (net_echo 200)
       [toy_game true [1; 2]%nat; toy_game false [3]%nat] (@start (net_echo 200) 0%nat)).2
    = effects (@pgn_data_extractor.parse_pgn_and_generate_json toy_chess (net_echo 200)
       [toy_game true [1; 2]%nat; toy_game false [3]%nat] (@start (net_echo 200) 7%nat)).2.
Proof.
  assert (@deterministic_client (net_echo 200)) as Hdet.
  { intros w1 w2 url params. reflexivity. }
  split; [exact Hdet|].
  destruct (@C9_runs_are_reproducible toy_chess (net_echo 200)
              (toy_game true [1; 2]%nat)
              [toy_game true [1; 2]%nat; toy_game false [3]%nat]
              corrupt_second (@start (net_echo 200) 0%nat) (@start (net_echo 200) 7%nat) Hdet eq_refl eq_refl)
    as (Hgame & _ & Hdump & _).
  split; assumption.
Defined.

(** * Further properties of the scripts *)

(** ** The requests of a game *)

Lemma positions_all `{ChessLib} moves :
  ∀ board, replay_error board moves = None →
    length (positions board moves) = length moves.
Proof.
  induction moves as [|move rest IH]; intros board Hacc; [done|].
  cbn [replay_error positions] in *.
  destruct (push board move) as [e|b]; [done|]. simpl. by rewrite IH.
Qed.

Lemma positions_short `{ChessLib} moves :
  ∀ board e, replay_error board moves = Some e →
    (length (positions board moves) < length moves)%nat.
Proof.
  induction moves as [|move rest IH]; intros board e Hrej; [done|].
  cbn [replay_error positions] in *.
  destruct (push board move) as [e'|b]; simpl; [lia|].
  specialize (IH b e Hrej). lia.
Qed.

Lemma for_moves_requests `{ChessLib} `{Requests} moves :
  ∀ board c acc s,
    sent (for_moves moves board c acc s).2
      = sent s ++ (request_for <$> positions board moves)
    ∧ effects (for_moves moves board c acc s).2 = effects s.
Proof.
  induction moves as [|move rest IH]; intros board c acc s.
  - simpl. by rewrite app_nil_r.
  - rewrite for_moves_cons. cbn [positions].
    destruct (push board move) as [e|b].
    + simpl. by rewrite app_nil_r.
    + destruct (analyze_run (board_fen b) 15 s) as (out & -> & _).
      match goal with
      | |- context [for_moves rest b (c + 1) ?a ?st] =>
          destruct (IH b (c + 1) a st) as [-> ->]
      end.
      simpl. by rewrite <- app_assoc.
Qed.

(** X1: a game the board accepts sends exactly one request per ply, in
    ply order, to the one API address, each carrying the FEN of that ply's
    record and depth 15 - whether or not earlier requests failed. *)
Theorem X1_one_request_per_ply `{ChessLib} `{Requests} (game : Game) (s : Sys) :
  replay_error (game_board game) (mainline_moves game) = None →
  ∃ recs s',
    process_game_moves_and_analyze game s = (Ok recs, s')
    ∧ sent s' = sent s ++ ((λ r, (api_url, mkParams (FEN r) 15)) <$> recs)
    ∧ length (sent s') = (length (sent s) + length (mainline_moves game))%nat.
Proof.
  intros Hacc.
  destruct (process_accepted game s Hacc)
    as (recs & s' & Hrun & _ & Hsent & _ & _ & _ & Hfen & _).
  exists recs, s'. split; [done|].
  assert (request_for <$> positions (game_board game) (mainline_moves game)
          = (λ r, (api_url, mkParams (FEN r) 15)) <$> recs) as Hreq.
  { unfold request_for.
    change (λ b : Board, (api_url, mkParams (board_fen b) 15))
      with ((λ fen : string, (api_url, mkParams fen 15)) ∘ board_fen).
    change (λ r : MoveRecord, (api_url, mkParams (FEN r) 15))
      with ((λ fen : string, (api_url, mkParams fen 15)) ∘ FEN).
    by rewrite !list_fmap_compose, Hfen. }
  split; [by rewrite Hsent, Hreq|].
  rewrite Hsent, length_app, length_fmap. by rewrite positions_all.
Qed.

(** X3: replaying and analysing a game prints nothing, writes nothing and
    never pauses, whether it returns or raises. *)
Theorem X3_replay_leaves_no_trace `{ChessLib} `{Requests} (game : Game) (s : Sys) :
  effects (process_game_moves_and_analyze game s).2 = effects s.
Proof.
  unfold process_game_moves_and_analyze.
  by destruct (for_moves_requests (mainline_moves game) (game_board game) 0 [] s).
Qed.

(** ** What the folder drivers write *)

Lemma filter_and_length {A} (p q : A → bool) l :
  (length (List.filter (λ x, p x && q x) l) ≤ length (List.filter p l))%nat.
Proof.
  induction l as [|x l IH]; simpl; [done|].
  destruct (p x), (q x); simpl; lia.
Qed.

Lemma seqZ_split_at lo n i :
  lo ≤ i < lo + n →
  seqZ lo n = seqZ lo (i - lo) ++ i :: seqZ (i + 1) (lo + n - i - 1).
Proof.
  intros Hi. transitivity (seqZ lo ((i - lo) + (lo + n - i))); [f_equal; lia|].
  rewrite seqZ_app by lia. f_equal.
  replace (lo + (i - lo)) with i by lia.
  rewrite (seqZ_cons i (lo + n - i)) by lia. f_equal; f_equal; lia.
Qed.

Lemma for_range_ext `{Requests} (body1 body2 : Z → M unit) range :
  (∀ i s, i ∈ range → body1 i s = body2 i s) →
  ∀ s, for_range body1 range s = for_range body2 range s.
Proof.
  induction range as [|i range IH]; intros Hext s; [done|].
  rewrite !for_range_cons, Hext by (apply elem_of_cons; by left).
  destruct (body2 i s) as [[[]|e] s1]; [|done].
  apply IH. intros j s2 Hj. apply Hext, elem_of_cons. by right.
Qed.

Section folder_traces.
Context `{ChessLib} `{Requests} (dataset_folder : Z → PgnFile).

Lemma saved_record (metadata : Game → list (string * string)) game s recs s' :
  process_game_moves_and_analyze game s = (Ok recs, s') →
  replay_error (game_board game) (mainline_moves game) = None →
  record_of metadata game (mkGameData (metadata game) recs).
Proof.
  intros Hrun Hacc.
  destruct (process_accepted game s Hacc) as (recs' & s'' & Hrun' & _ & _ & _ & _ & Huci & _).
  split; [done|]. simpl. congruence.
Qed.

Lemma step_saves i s :
  readable (dataset_folder i) →
  ∃ s' new,
    pgn_to_JSON.game_step dataset_folder i s = (Ok tt, s')
    ∧ effects s' = effects s ++ new
    ∧ sleeps new = []
    ∧ (dumped_games new).*1 = (if holds_game (dataset_folder i) then [i] else [])
    ∧ Forall (λ d, ∃ game, dataset_folder d.1 = PgnGame game
                  ∧ record_of pgn_to_JSON.game_metadata game d.2) (dumped_games new).
Proof.
  unfold pgn_to_JSON.game_step, readable.
  destruct (dataset_folder i) as [| |game] eqn:Hi; [done| |].
  - intros _. eexists; exists [PrintSkipping i].
    split; [reflexivity|]. by repeat split.
  - intros Hacc.
    destruct (process_accepted game s Hacc) as (recs & s' & Hrun & Heff & _).
    unfold bind. rewrite Hrun. unfold emit. simpl.
    eexists; eexists. split; [reflexivity|]. simpl. rewrite Heff, <- app_assoc.
    split; [reflexivity|]. split; [done|]. split; [done|].
    repeat constructor. exists game. split; [done|].
    by eapply saved_record.
Qed.

Lemma converter_step_saves i s :
  readable (dataset_folder i) →
  ∃ s' new,
    pgn_to_JSON_converter.game_step dataset_folder i s = (Ok tt, s')
    ∧ effects s' = effects s ++ new
    ∧ sleeps new = (if Z.even i && holds_game (dataset_folder i) then [60] else [])
    ∧ (dumped_games new).*1 = (if holds_game (dataset_folder i) then [i] else [])
    ∧ Forall (λ d, ∃ game, dataset_folder d.1 = PgnGame game
                  ∧ record_of pgn_to_JSON_converter.game_metadata game d.2)
        (dumped_games new).
Proof.
  unfold pgn_to_JSON_converter.game_step, readable.
  destruct (dataset_folder i) as [| |game] eqn:Hi; [done| |].
  - intros _. eexists; exists [PrintSkipping i].
    split; [reflexivity|]. rewrite andb_false_r. by repeat split.
  - intros Hacc.
    destruct (process_accepted game s Hacc) as (recs & s' & Hrun & Heff & _).
    unfold bind. rewrite Hrun, even_test. unfold emit. simpl.
    rewrite andb_true_r.
    assert (record_of pgn_to_JSON_converter.game_metadata game
              (mkGameData (pgn_to_JSON_converter.game_metadata game) recs)) as Hrec
      by by eapply saved_record.
    destruct (Z.even i); simpl;
      (eexists; eexists; split; [reflexivity|]; simpl;
       rewrite Heff, <- !app_assoc; split; [reflexivity|];
       split; [done|]; split; [done|];
       repeat constructor; exists game; by split).
Qed.

(** A loop whose steps all save: the traces of the steps, one after the
    other. *)
Lemma run_saves (step : Z → M unit) (pause : Z → bool)
    (metadata : Game → list (string * string)) range :
  (∀ i s, i ∈ range →
     ∃ s' new,
       step i s = (Ok tt, s')
       ∧ effects s' = effects s ++ new
       ∧ sleeps new = (if pause i && holds_game (dataset_folder i) then [60] else [])
       ∧ (dumped_games new).*1 = (if holds_game (dataset_folder i) then [i] else [])
       ∧ Forall (λ d, ∃ game, dataset_folder d.1 = PgnGame game
                     ∧ record_of metadata game d.2) (dumped_games new)) →
  ∀ s,
    ∃ s' new,
      for_range step range s = (Ok tt, s')
      ∧ effects s' = effects s ++ new
      ∧ sleeps new
          = (λ _, 60) <$> List.filter (λ i, pause i && holds_game (dataset_folder i)) range
      ∧ (dumped_games new).*1 = List.filter (λ i, holds_game (dataset_folder i)) range
      ∧ Forall (λ d, ∃ game, dataset_folder d.1 = PgnGame game
                    ∧ record_of metadata game d.2) (dumped_games new).
Proof.
  induction range as [|i range IH]; intros Hstep s.
  - exists s, []. rewrite app_nil_r. by repeat split.
  - rewrite for_range_cons.
    destruct (Hstep i s) as (s1 & new1 & -> & Heff1 & Hsl1 & Hd1 & Hr1);
      [apply elem_of_cons; by left|].
    destruct (IH (λ j s2 Hj, Hstep j s2 (proj2 (elem_of_cons _ _ _) (or_intror Hj))) s1)
      as (s' & new2 & Hrun & Heff2 & Hsl2 & Hd2 & Hr2).
    exists s', (new1 ++ new2). split; [done|].
    split; [by rewrite Heff2, Heff1, app_assoc|].
    unfold sleeps, dumped_games in *. rewrite !omap_app, fmap_app.
    rewrite Hsl1, Hsl2, Hd1, Hd2. simpl.
    split; [by destruct (pause i && holds_game (dataset_folder i))|].
    split; [by destruct (holds_game (dataset_folder i))|].
    by apply Forall_app.
Qed.
End folder_traces.

(** X4: over a folder whose twenty files all exist and replay,
    [pgn_to_JSON.py] saves one record per file that holds a game, in file
    order and under that file's index, each with that game's metadata and
    one move record per move; empty files are passed over; it never
    pauses. *)
Theorem X4_folder_run_saves_each_game `{ChessLib} `{Requests}
    (dataset_folder : Z → PgnFile) (s : Sys) :
  (∀ i, 1 ≤ i ≤ 20 → readable (dataset_folder i)) →
  ∃ s' new,
    pgn_to_JSON.parse_pgn_and_generate_json dataset_folder s = (Ok tt, s')
    ∧ effects s' = effects s ++ new
    ∧ (dumped_games new).*1 = List.filter (λ i, holds_game (dataset_folder i)) (seqZ 1 20)
    ∧ Forall (λ d, ∃ game, dataset_folder d.1 = PgnGame game
                  ∧ record_of pgn_to_JSON.game_metadata game d.2) (dumped_games new)
    ∧ sleeps new = [].
Proof.
  intros Hread.
  destruct (run_saves dataset_folder (pgn_to_JSON.game_step dataset_folder)
              (λ _, false) pgn_to_JSON.game_metadata (seqZ 1 20)) with (s := s)
    as (s' & new & Hrun & Heff & Hsl & Hd & Hr).
  { intros i s0 Hi. apply step_saves, Hread. apply elem_of_seqZ in Hi. lia. }
  exists s', new. by repeat split.
Qed.

(** X5: over a folder whose files 6 to 20 all exist and replay, the
    converter saves one record per file that holds a game, in file order,
    and sleeps 60 seconds once per saved game of even index: at most eight
    pauses, 480 seconds in all. *)
Theorem X5_converter_run_saves_and_pauses `{ChessLib} `{Requests}
    (dataset_folder : Z → PgnFile) (s : Sys) :
  (∀ i, 6 ≤ i ≤ 20 → readable (dataset_folder i)) →
  ∃ s' new,
    pgn_to_JSON_converter.parse_pgn_and_generate_json dataset_folder s = (Ok tt, s')
    ∧ effects s' = effects s ++ new
    ∧ (dumped_games new).*1 = List.filter (λ i, holds_game (dataset_folder i)) (seqZ 6 15)
    ∧ Forall (λ d, ∃ game, dataset_folder d.1 = PgnGame game
                  ∧ record_of pgn_to_JSON_converter.game_metadata game d.2)
        (dumped_games new)
    ∧ Forall (λ seconds, seconds = 60) (sleeps new)
    ∧ (length (sleeps new) ≤ 8)%nat
    ∧ foldr Z.add 0 (sleeps new) ≤ 480.
Proof.
  intros Hread.
  destruct (run_saves dataset_folder (pgn_to_JSON_converter.game_step dataset_folder)
              Z.even pgn_to_JSON_converter.game_metadata (seqZ 6 15)) with (s := s)
    as (s' & new & Hrun & Heff & Hsl & Hd & Hr).
  { intros i s0 Hi. apply converter_step_saves, Hread. apply elem_of_seqZ in Hi. lia. }
  exists s', new. do 4 (split; [done|]).
  pose proof (filter_and_length Z.even (λ i, holds_game (dataset_folder i)) (seqZ 6 15))
    as Hlen.
  change (length (List.filter Z.even (seqZ 6 15))) with 8%nat in Hlen.
  rewrite Hsl.
  set (l := List.filter (λ i, Z.even i && holds_game (dataset_folder i)) (seqZ 6 15)) in *.
  clearbody l. split; [|split].
  - apply Forall_fmap. by apply Forall_true.
  - by rewrite length_fmap.
  - assert (foldr Z.add 0 ((λ _ : Z, 60) <$> l) = 60 * Z.of_nat (length l)) as ->.
    { clear. induction l as [|x l IH]; [done|]. cbn [fmap list_fmap foldr length].
      change (foldr Z.add 0 (list_fmap Z Z (λ _ : Z, 60) l))
        with (foldr Z.add 0 ((λ _ : Z, 60) <$> l)).
      rewrite IH. lia. }
    lia.
Qed.

Section missing_file.
Context `{ChessLib} `{Requests} (dataset_folder : Z → PgnFile).

(** A file that cannot be opened ends the loop of [pgn_to_JSON.py]. *)
Lemma run_stops_at_missing i after :
  dataset_folder i = NoSuchFile →
  ∀ before s,
    ∃ e' s' new,
      for_range (pgn_to_JSON.game_step dataset_folder) (before ++ i :: after) s
        = (Raise e', s')
      ∧ effects s' = effects s ++ new
      ∧ Forall (λ ev, ∃ j, effect_index ev = Some j ∧ j ∈ before) new
      ∧ ((∀ j, j ∈ before → readable (dataset_folder j)) → e' = FileNotFoundError i).
Proof.
  intros Hi. induction before as [|j before IH]; intros s.
  - simpl app. rewrite for_range_cons. unfold pgn_to_JSON.game_step at 1.
    rewrite Hi. simpl. exists (FileNotFoundError i), s, [].
    rewrite app_nil_r. by repeat split.
  - simpl app. rewrite for_range_cons.
    destruct (step_trace dataset_folder j s) as (new & Heff & Hnew).
    destruct (pgn_to_JSON.game_step dataset_folder j s) as [[[]|e'] s1] eqn:Hstep;
      simpl in Heff.
    + destruct (IH s1) as (e2 & s2 & new2 & -> & Heff2 & Hnew2 & He2).
      exists e2, s2, (new ++ new2). split; [done|].
      split; [by rewrite Heff2, Heff, app_assoc|]. split.
      * apply Forall_app. split.
        -- eapply Forall_impl; [exact Hnew|]. intros ev Hev. exists j.
           split; [done|]. apply elem_of_cons. by left.
        -- eapply Forall_impl; [exact Hnew2|]. intros ev (k & Hev & Hk).
           exists k. split; [done|]. apply elem_of_cons. by right.
      * intros Hread. apply He2. intros k Hk. apply Hread.
        apply elem_of_cons. by right.
    + exists e', s1, new. split; [done|]. split; [done|]. split.
      * eapply Forall_impl; [exact Hnew|]. intros ev Hev. exists j.
        split; [done|]. apply elem_of_cons. by left.
      * intros Hread.
        destruct (step_readable dataset_folder j s) as (s2 & new2 & Hok & _).
        { apply Hread. apply elem_of_cons. by left. }
        congruence.
Qed.
End missing_file.

(** X6: a missing [game{i}.pgn] (1 to 20) ends the run of [pgn_to_JSON.py]
    with an exception: nothing is written for file i or any later file,
    and when the earlier files are readable the exception is the
    [FileNotFoundError] of file i. *)
Theorem X6_missing_file_ends_the_run `{ChessLib} `{Requests}
    (dataset_folder : Z → PgnFile) (i : Z) (s : Sys) :
  1 ≤ i ≤ 20 →
  dataset_folder i = NoSuchFile →
  ∃ e' s' new,
    pgn_to_JSON.parse_pgn_and_generate_json dataset_folder s = (Raise e', s')
    ∧ effects s' = effects s ++ new
    ∧ Forall (λ ev, ∃ j, effect_index ev = Some j ∧ 1 ≤ j < i) new
    ∧ ((∀ j, 1 ≤ j < i → readable (dataset_folder j)) → e' = FileNotFoundError i).
Proof.
  intros Hi Hfile. unfold pgn_to_JSON.parse_pgn_and_generate_json.
  rewrite (seqZ_split_at 1 20 i) by lia.
  destruct (run_stops_at_missing dataset_folder i (seqZ (i + 1) (1 + 20 - i - 1))
              Hfile (seqZ 1 (i - 1)) s)
    as (e' & s' & new & Hrun & Heff & Hnew & He).
  exists e', s', new. split; [done|]. split; [done|]. split.
  - eapply Forall_impl; [exact Hnew|]. intros ev (j & Hev & Hj).
    exists j. split; [done|]. apply elem_of_seqZ in Hj. lia.
  - intros Hread. apply He. intros j Hj. apply Hread.
    apply elem_of_seqZ in Hj. lia.
Qed.

(** X7: the converter reads the files 6 to 20 only, and [pgn_to_JSON.py]
    the files 1 to 20 only: two folders that agree on those files give the
    same run, whatever else they hold. *)
Theorem X7_only_the_range_is_read `{ChessLib} `{Requests}
    (folder1 folder2 : Z → PgnFile) (s : Sys) :
  ((∀ i, 6 ≤ i ≤ 20 → folder1 i = folder2 i) →
     pgn_to_JSON_converter.parse_pgn_and_generate_json folder1 s
       = pgn_to_JSON_converter.parse_pgn_and_generate_json folder2 s)
  ∧ ((∀ i, 1 ≤ i ≤ 20 → folder1 i = folder2 i) →
     pgn_to_JSON.parse_pgn_and_generate_json folder1 s
       = pgn_to_JSON.parse_pgn_and_generate_json folder2 s).
Proof.
  split; intros Hsame.
  - apply for_range_ext. intros i s0 Hi. apply elem_of_seqZ in Hi.
    unfold pgn_to_JSON_converter.game_step. by rewrite Hsame by lia.
  - apply for_range_ext. intros i s0 Hi. apply elem_of_seqZ in Hi.
    unfold pgn_to_JSON.game_step. by rewrite Hsame by lia.
Qed.

(** ** The single-file driver, [pgn_data_extractor.py] *)

Section extractor.
Context `{ChessLib} `{Requests}.

Lemma read_games_cons game rest c acc s :
  pgn_data_extractor.read_games (game :: rest) c acc s =
    match process_game_moves_and_analyze game
            (mkSys _ (world s) (sent s) (effects s ++ [PrintAnalyzing (c + 1)])) with
    | (Ok recs, s1) =>
        pgn_data_extractor.read_games rest (c + 1)
          (acc ++ [mkGameData (pgn_data_extractor.game_metadata game) recs]) s1
    | (Raise e, s1) => (Raise e, s1)
    end.
Proof. reflexivity. Qed.

Lemma read_games_all pgn_file :
  Forall replayable pgn_file →
  ∀ c acc s,
    ∃ datas s',
      pgn_data_extractor.read_games pgn_file c acc s = (Ok (acc ++ datas), s')
      ∧ effects s' = effects s
          ++ (PrintAnalyzing <$> seqZ (c + 1) (Z.of_nat (length pgn_file)))
          ++ [PrintEndOfFile]
      ∧ Forall2 (record_of pgn_data_extractor.game_metadata) pgn_file datas.
Proof.
  induction pgn_file as [|game rest IH]; intros Hall c acc s.
  - exists [], (mkSys _ (world s) (sent s) (effects s ++ [PrintEndOfFile])).
    rewrite app_nil_r. by repeat split.
  - apply Forall_cons in Hall as [Hgame Hrest]. rewrite read_games_cons.
    match goal with
    | |- context [process_game_moves_and_analyze game ?st] =>
        destruct (process_accepted game st Hgame) as (recs & s1 & Hrun & Heff1 & _)
    end.
    rewrite Hrun.
    destruct (IH Hrest (c + 1)
                (acc ++ [mkGameData (pgn_data_extractor.game_metadata game) recs]) s1)
      as (datas & s' & -> & Heff & Hrecs).
    exists (mkGameData (pgn_data_extractor.game_metadata game) recs :: datas), s'.
    rewrite <- app_assoc. split; [done|]. split.
    + rewrite Heff, Heff1. cbn [effects length].
      rewrite Nat2Z.inj_succ, (seqZ_cons (c + 1)) by lia.
      rewrite Z.pred_succ, fmap_cons, <- !app_assoc.
      by replace (Z.succ (c + 1)) with (c + 1 + 1) by lia.
    + constructor; [|done]. by eapply saved_record.
Qed.

End extractor.

(** X8: when every game of the file replays, [pgn_data_extractor.py]
    announces the games as 1, 2, ..., n, reports the end of the file, and
    then writes everything in one piece: one record per game, in file
    order, each with that game's four-key metadata and one move record per
    move. *)
Theorem X8_extractor_dumps_all_games_once `{ChessLib} `{Requests}
    (pgn_file : list Game) (s : Sys) :
  Forall replayable pgn_file →
  ∃ datas s',
    pgn_data_extractor.parse_pgn_and_generate_json pgn_file s = (Ok tt, s')
    ∧ effects s' = effects s
        ++ (PrintAnalyzing <$> seqZ 1 (Z.of_nat (length pgn_file)))
        ++ [PrintEndOfFile; JsonDumpAll datas; PrintAllSaved]
    ∧ Forall2 (record_of pgn_data_extractor.game_metadata) pgn_file datas.
Proof.
  intros Hall. unfold pgn_data_extractor.parse_pgn_and_generate_json, bind.
  destruct (read_games_all pgn_file Hall 0 [] s) as (datas & s1 & -> & Heff & Hrecs).
  exists datas. eexists. split; [reflexivity|]. split; [|done].
  unfold emit. simpl. rewrite Heff, <- !app_assoc. done.
Qed.

(** ** Metadata beyond the missing headers *)

Lemma dict_lookup_None {V} (d : list (string * V)) key :
  key ∉ d.*1 → dict_lookup d key = None.
Proof.
  induction d as [|[k v] d IH]; intros Hkey; [done|]. simpl.
  destruct (String.eqb_spec k key) as [->|Hne].
  - exfalso. apply Hkey. simpl. apply elem_of_cons. by left.
  - apply IH. intros Hin. apply Hkey. simpl. apply elem_of_cons. by right.
Qed.

Ltac each_key Hkey :=
  repeat (apply elem_of_cons in Hkey as [->|Hkey]);
  [..|by apply elem_of_nil in Hkey].

(** X10: a header the game has is copied as it is: each script binds each
    of its keys to the header's value, never to the fallback. *)
Theorem X10_present_header_copied `{ChessLib} (game : Game) (key value : string) :
  headers game !! key = Some value →
  (key ∈ recognized_keys →
     dict_lookup (pgn_to_JSON.game_metadata game) key = Some value
     ∧ dict_lookup (pgn_to_JSON_converter.game_metadata game) key = Some value)
  ∧ (key ∈ extractor_keys →
     dict_lookup (pgn_data_extractor.game_metadata game) key = Some value).
Proof.
  intros Hval. split; intros Hkey.
  - unfold recognized_keys in Hkey.
    each_key Hkey;
      unfold pgn_to_JSON.game_metadata, pgn_to_JSON_converter.game_metadata;
      cbn [dict_lookup String.eqb Ascii.eqb Bool.eqb]; unfold headers_get;
      rewrite Hval; by split.
  - unfold extractor_keys in Hkey.
    each_key Hkey;
      unfold pgn_data_extractor.game_metadata;
      cbn [dict_lookup String.eqb Ascii.eqb Bool.eqb]; unfold headers_get;
      by rewrite Hval.
Qed.

(** X11: headers outside a script's keys never reach its metadata: the
    folder drivers drop every header that is not one of the twelve, and the
    single-file driver every header but Event, White, Black and Result
    (ratings, ECO, opening, termination and round included). *)
Theorem X11_other_headers_dropped `{ChessLib} (game : Game) (key : string) :
  (key ∉ recognized_keys →
     dict_lookup (pgn_to_JSON.game_metadata game) key = None
     ∧ dict_lookup (pgn_to_JSON_converter.game_metadata game) key = None)
  ∧ (key ∉ extractor_keys →
     dict_lookup (pgn_data_extractor.game_metadata game) key = None).
Proof.
  split; intros Hkey; [split|]; by apply dict_lookup_None.
Qed.

(** ** The CSV summary *)

Lemma summary_loop `{ChessLib} (pgn_files_directory : Z → PgnFile) range :
  ∀ out,
    csv_file_generator.rows
      (foldl (csv_file_generator.file_step pgn_files_directory) out range)
      = csv_file_generator.rows out
        ++ omap (λ i, csv_file_generator.game_row i <$> game_of (pgn_files_directory i)) range
    ∧ csv_file_generator.printed
        (foldl (csv_file_generator.file_step pgn_files_directory) out range)
      = csv_file_generator.printed out
        ++ (csv_file_generator.PrintErrorReading
              <$> List.filter (λ i, empty_file (pgn_files_directory i)) range).
Proof.
  induction range as [|i range IH]; intros out.
  - simpl. by rewrite !app_nil_r.
  - cbn [foldl]. destruct (IH (csv_file_generator.file_step pgn_files_directory out i))
      as [-> ->].
    unfold csv_file_generator.file_step. cbn [omap list_omap List.filter].
    destruct (pgn_files_directory i) as [| |game]; simpl;
      by rewrite <- ?app_assoc.
Qed.

Lemma summary_count `{ChessLib} (pgn_files_directory : Z → PgnFile) range :
  length (omap (λ i, csv_file_generator.game_row i <$> game_of (pgn_files_directory i)) range)
    = length (List.filter (λ i, holds_game (pgn_files_directory i)) range).
Proof.
  induction range as [|i range IH]; [done|].
  cbn [omap list_omap List.filter].
  destruct (pgn_files_directory i); cbn [game_of holds_game fmap option_fmap option_map length];
    by rewrite ?IH.
Qed.

Lemma occurs_append c s1 s2 : occurs c (s1 +:+ s2) = occurs c s1 || occurs c s2.
Proof.
  induction s1 as [|c' s1 IH]; simpl; [done|]. by rewrite IH, orb_assoc.
Qed.

Lemma replace_spaces_clean s : occurs csv_file_generator.space (csv_file_generator.replace_spaces s) = false.
Proof.
  induction s as [|c s IH]; simpl; [done|]. rewrite IH, orb_false_r.
  destruct (Ascii.eqb_spec c csv_file_generator.space) as [->|Hne]; [done|].
  by apply Ascii.eqb_neq.
Qed.

Lemma replace_spaces_length s :
  String.length (csv_file_generator.replace_spaces s) = String.length s.
Proof. induction s as [|c s IH]; simpl; [done|]. by rewrite IH. Qed.

Lemma replace_spaces_id s :
  occurs csv_file_generator.space s = false → csv_file_generator.replace_spaces s = s.
Proof.
  induction s as [|c s IH]; simpl; [done|]. intros Hs.
  apply orb_false_iff in Hs as [Hc Hs]. by rewrite Hc, IH.
Qed.

Lemma append_length s1 s2 :
  String.length (s1 +:+ s2) = (String.length s1 + String.length s2)%nat.
Proof. induction s1 as [|c s1 IH]; simpl; [done|]. by rewrite IH. Qed.

(** X13: the summary always completes, whatever the folder holds: the
    header row comes first, then one row per file (1 to 20) that holds a
    game, in file order; a missing file leaves nothing, an empty file only
    an error message; the "created" message comes last. *)
Theorem X13_summary_rows `{ChessLib} (pgn_files_directory : Z → PgnFile) :
  let out := csv_file_generator.extract_game_details pgn_files_directory in
  csv_file_generator.rows out
    = csv_file_generator.header_row
      :: omap (λ i, csv_file_generator.game_row i <$> game_of (pgn_files_directory i))
           (seqZ 1 20)
  ∧ csv_file_generator.printed out
    = (csv_file_generator.PrintErrorReading
         <$> List.filter (λ i, empty_file (pgn_files_directory i)) (seqZ 1 20))
      ++ [csv_file_generator.PrintCreated]
  ∧ length (csv_file_generator.rows out)
    = S (length (List.filter (λ i, holds_game (pgn_files_directory i)) (seqZ 1 20))).
Proof.
  intros out. subst out. unfold csv_file_generator.extract_game_details.
  generalize (seqZ 1 20). intros range.
  destruct (summary_loop pgn_files_directory range
              (csv_file_generator.mkOutput [csv_file_generator.header_row] []))
    as [Hrows Hprinted].
  cbn [csv_file_generator.rows csv_file_generator.printed] in *.
  rewrite Hrows, Hprinted. split; [reflexivity|]. split; [reflexivity|].
  exact (f_equal S (summary_count pgn_files_directory range)).
Qed.

(** X14: the link of a row never contains a space: it is the map-search
    address followed by the Site header with every space turned into '+',
    so it is as long as the address (35 characters) plus the site; a site
    without spaces is appended unchanged. *)
Theorem X14_link_has_no_space `{ChessLib} (i : Z) (game : Game) (link : string) :
  csv_file_generator.game_row i game !! 3%nat = Some link →
  occurs csv_file_generator.space link = false
  ∧ String.length link
    = (35 + String.length (headers_get (headers game) "Site" "Unknown"))%nat
  ∧ (occurs csv_file_generator.space (headers_get (headers game) "Site" "Unknown") = false →
     link = "https://www.google.com/maps/search/"
            +:+ headers_get (headers game) "Site" "Unknown").
Proof.
  intros Hlink. injection Hlink as <-. split; [|split].
  - by rewrite occurs_append, replace_spaces_clean.
  - by rewrite append_length, replace_spaces_length.
  - intros Hclean. by rewrite replace_spaces_id.
Qed.

(** X15: the first field of a row names its file, and rows of different
    files never share it. *)
Theorem X15_game_numbers_distinct `{ChessLib} (i j : Z) (game1 game2 : Game) :
  head (csv_file_generator.game_row i game1) = head (csv_file_generator.game_row j game2) →
  i = j.
Proof.
  intros Hsame. simpl in Hsame. injection Hsame as Hsame.
  change (pretty i = pretty j) in Hsame. by apply (inj pretty) in Hsame.
Qed.

(** ** The requests of a run *)

Section run_requests.
Context `{ChessLib} `{Requests} (dataset_folder : Z → PgnFile).

Lemma step_requests i s :
  readable (dataset_folder i) →
  ∃ s',
    pgn_to_JSON.game_step dataset_folder i s = (Ok tt, s')
    ∧ sent s' = sent s ++ requests_of (dataset_folder i).
Proof.
  unfold pgn_to_JSON.game_step, readable, requests_of.
  destruct (dataset_folder i) as [| |game]; [done| |].
  - intros _. eexists. split; [reflexivity|]. simpl. by rewrite app_nil_r.
  - intros Hacc.
    destruct (process_accepted game s Hacc) as (recs & s' & Hrun & _ & Hsent & _).
    unfold bind. rewrite Hrun. unfold emit. simpl.
    eexists. split; [reflexivity|]. done.
Qed.

Lemma converter_step_requests i s :
  readable (dataset_folder i) →
  ∃ s',
    pgn_to_JSON_converter.game_step dataset_folder i s = (Ok tt, s')
    ∧ sent s' = sent s ++ requests_of (dataset_folder i).
Proof.
  unfold pgn_to_JSON_converter.game_step, readable, requests_of.
  destruct (dataset_folder i) as [| |game]; [done| |].
  - intros _. eexists. split; [reflexivity|]. simpl. by rewrite app_nil_r.
  - intros Hacc.
    destruct (process_accepted game s Hacc) as (recs & s' & Hrun & _ & Hsent & _).
    unfold bind. rewrite Hrun. unfold emit. simpl.
    destruct (bool_decide (i `mod` 2 = 0)); simpl;
      (eexists; split; [reflexivity|]; done).
Qed.

Lemma run_requests (step : Z → M unit) range :
  (∀ i s, i ∈ range →
     ∃ s', step i s = (Ok tt, s') ∧ sent s' = sent s ++ requests_of (dataset_folder i)) →
  ∀ s,
    ∃ s',
      for_range step range s = (Ok tt, s')
      ∧ sent s' = sent s ++ concat ((λ i, requests_of (dataset_folder i)) <$> range).
Proof.
  induction range as [|i range IH]; intros Hstep s.
  - exists s. simpl. by rewrite app_nil_r.
  - rewrite for_range_cons.
    destruct (Hstep i s) as (s1 & -> & Hsent1); [apply elem_of_cons; by left|].
    destruct (IH (λ j s2 Hj, Hstep j s2 (proj2 (elem_of_cons _ _ _) (or_intror Hj))) s1)
      as (s' & Hrun & Hsent).
    exists s'. split; [done|]. rewrite Hsent, Hsent1, fmap_cons. simpl.
    by rewrite <- app_assoc.
Qed.

Lemma requests_count range :
  (∀ i, i ∈ range → readable (dataset_folder i)) →
  length (concat ((λ i, requests_of (dataset_folder i)) <$> range))
    = sum_list ((λ i, moves_of (dataset_folder i)) <$> range).
Proof.
  induction range as [|i range IH]; intros Hread; [done|].
  rewrite !fmap_cons. simpl. rewrite length_app, IH.
  - f_equal. specialize (Hread i (proj2 (elem_of_cons _ _ _) (or_introl eq_refl))).
    unfold requests_of, moves_of, readable in *.
    destruct (dataset_folder i) as [| |game]; [done..|].
    by rewrite length_fmap, positions_all.
  - intros j Hj. apply Hread, elem_of_cons. by right.
Qed.
End run_requests.

(** X16: over a readable folder a run sends the requests of its games one
    game after the other, in file order, and nothing else: as many
    requests as the games of files 1 to 20 ([pgn_to_JSON.py]) or 6 to 20
    (the converter) have moves. *)
Theorem X16_run_sends_one_request_per_move `{ChessLib} `{Requests}
    (dataset_folder : Z → PgnFile) (s : Sys) :
  ((∀ i, 1 ≤ i ≤ 20 → readable (dataset_folder i)) →
   ∃ s',
     pgn_to_JSON.parse_pgn_and_generate_json dataset_folder s = (Ok tt, s')
     ∧ sent s' = sent s ++ concat ((λ i, requests_of (dataset_folder i)) <$> seqZ 1 20)
     ∧ length (sent s')
       = (length (sent s) + sum_list ((λ i, moves_of (dataset_folder i)) <$> seqZ 1 20))%nat)
  ∧ ((∀ i, 6 ≤ i ≤ 20 → readable (dataset_folder i)) →
   ∃ s',
     pgn_to_JSON_converter.parse_pgn_and_generate_json dataset_folder s = (Ok tt, s')
     ∧ sent s' = sent s ++ concat ((λ i, requests_of (dataset_folder i)) <$> seqZ 6 15)
     ∧ length (sent s')
       = (length (sent s) + sum_list ((λ i, moves_of (dataset_folder i)) <$> seqZ 6 15))%nat).
Proof.
  split; intros Hread.
  - assert (∀ i, i ∈ seqZ 1 20 → readable (dataset_folder i)) as Hin.
    { intros i Hi. apply Hread. apply elem_of_seqZ in Hi. lia. }
    destruct (run_requests dataset_folder (pgn_to_JSON.game_step dataset_folder)
                (seqZ 1 20)) with (s := s) as (s' & Hrun & Hsent).
    { intros i s0 Hi. by apply step_requests, Hin. }
    exists s'. split; [done|]. split; [done|].
    by rewrite Hsent, length_app, requests_count.
  - assert (∀ i, i ∈ seqZ 6 15 → readable (dataset_folder i)) as Hin.
    { intros i Hi. apply Hread. apply elem_of_seqZ in Hi. lia. }
    destruct (run_requests dataset_folder (pgn_to_JSON_converter.game_step dataset_folder)
                (seqZ 6 15)) with (s := s) as (s' & Hrun & Hsent).
    { intros i s0 Hi. by apply converter_step_requests, Hin. }
    exists s'. split; [done|]. split; [done|].
    by rewrite Hsent, length_app, requests_count.
Qed.

(** ** The further properties at concrete inputs *)

Lemma X1_three_plies_three_requests :
  @replay_error toy_chess (true, []) [1; 2; 3]%nat = None
  ∧ ∃ recs s',
      @process_game_moves_and_analyze toy_chess net_down
        (toy_game true [1; 2; 3]%nat) (@start net_down tt) = (Ok recs, s')
      ∧ length (sent s') = 3%nat.
Proof.
  split; [reflexivity|].
  destruct (@X1_one_request_per_ply toy_chess net_down
              (toy_game true [1; 2; 3]%nat) (@start net_down tt) eq_refl)
    as (recs & s' & Hrun & _ & Hlen).
  exists recs, s'. split; assumption.
Defined.

Lemma all_games_readable i : @readable toy_chess (all_games i).
Proof. reflexivity. Qed.

Lemma five_games_readable i : @readable toy_chess (five_games i).
Proof. unfold five_games. destruct (bool_decide (6 ≤ i ≤ 10)); [reflexivity|exact I]. Qed.

Lemma X4_twenty_games_saved :
  (∀ i, 1 ≤ i ≤ 20 → @readable toy_chess (all_games i))
  ∧ ∃ s' new,
      @pgn_to_JSON.parse_pgn_and_generate_json toy_chess net_down all_games
        (@start net_down tt) = (Ok tt, s')
      ∧ effects s' = [] ++ new
      ∧ (dumped_games new).*1 = seqZ 1 20
      ∧ sleeps new = [].
Proof.
  split; [intros i _; apply all_games_readable|].
  destruct (@X4_folder_run_saves_each_game toy_chess net_down all_games
              (@start net_down tt) (λ i _, all_games_readable i))
    as (s' & new & Hrun & Heff & Hd & _ & Hsl).
  exists s', new. repeat split; assumption.
Defined.

Lemma X5_five_games_three_pauses :
  (∀ i, 6 ≤ i ≤ 20 → @readable toy_chess (five_games i))
  ∧ ∃ s' new,
      @pgn_to_JSON_converter.parse_pgn_and_generate_json toy_chess net_down five_games
        (@start net_down tt) = (Ok tt, s')
      ∧ effects s' = [] ++ new
      ∧ (dumped_games new).*1 = [6; 7; 8; 9; 10]
      ∧ (length (sleeps new) ≤ 8)%nat.
Proof.
  split; [intros i _; apply five_games_readable|].
  destruct (@X5_converter_run_saves_and_pauses toy_chess net_down five_games
              (@start net_down tt) (λ i _, five_games_readable i))
    as (s' & new & Hrun & Heff & Hd & _ & _ & Hlen & _).
  exists s', new. repeat split; assumption.
Defined.

Lemma X6_third_file_missing :
  1 ≤ 3 ≤ 20
  ∧ third_missing 3 = NoSuchFile
  ∧ ∃ e' s' new,
      @pgn_to_JSON.parse_pgn_and_generate_json toy_chess net_down third_missing
        (@start net_down tt) = (Raise e', s')
      ∧ effects s' = [] ++ new
      ∧ Forall (λ ev, ∃ j, effect_index ev = Some j ∧ 1 ≤ j < 3) new.
Proof.
  split; [lia|]. split; [reflexivity|].
  destruct (@X6_missing_file_ends_the_run toy_chess net_down third_missing 3
              (@start net_down tt) ltac:(lia) eq_refl)
    as (e' & s' & new & Hrun & Heff & Hnew & _).
  exists e', s', new. repeat split; assumption.
Defined.

Lemma X7_first_file_is_not_read :
  (∀ i, 6 ≤ i ≤ 20 → five_games i = five_games_less i)
  ∧ five_games 1 ≠ five_games_less 1
  ∧ @pgn_to_JSON_converter.parse_pgn_and_generate_json toy_chess net_down five_games
      (@start net_down tt)
    = @pgn_to_JSON_converter.parse_pgn_and_generate_json toy_chess net_down
        five_games_less (@start net_down tt).
Proof.
  assert (∀ i, 6 ≤ i ≤ 20 → five_games i = five_games_less i) as Hsame.
  { intros i Hi. unfold five_games_less. rewrite bool_decide_false by lia. reflexivity. }
  split; [exact Hsame|]. split; [discriminate|].
  exact (proj1 (@X7_only_the_range_is_read toy_chess net_down five_games five_games_less
                  (@start net_down tt)) Hsame).
Defined.

Lemma X8_two_games_one_dump :
  Forall (@replayable toy_chess) [toy_game true [1; 2]%nat; toy_game false [3]%nat]
  ∧ ∃ datas s',
      @pgn_data_extractor.parse_pgn_and_generate_json toy_chess net_down
        [toy_game true [1; 2]%nat; toy_game false [3]%nat] (@start net_down tt)
        = (Ok tt, s')
      ∧ effects s' = [] ++ [PrintAnalyzing 1; PrintAnalyzing 2]
          ++ [PrintEndOfFile; JsonDumpAll datas; PrintAllSaved].
Proof.
  assert (Forall (@replayable toy_chess)
            [toy_game true [1; 2]%nat; toy_game false [3]%nat]) as Hall.
  { repeat constructor. }
  split; [exact Hall|].
  destruct (@X8_extractor_dumps_all_games_once toy_chess net_down
              [toy_game true [1; 2]%nat; toy_game false [3]%nat] (@start net_down tt) Hall)
    as (datas & s' & Hrun & Heff & _).
  exists datas, s'. split; assumption.
Defined.

Lemma X10_white_player_copied :
  headers white_only !! "White" = Some "Carlsen"
  ∧ "White" ∈ recognized_keys
  ∧ dict_lookup (pgn_to_JSON.game_metadata white_only) "White" = Some "Carlsen"
  ∧ dict_lookup (pgn_to_JSON_converter.game_metadata white_only) "White" = Some "Carlsen".
Proof.
  assert ("White" ∈ recognized_keys) as Hkey.
  { apply elem_of_cons. right. apply elem_of_cons. by left. }
  split; [reflexivity|]. split; [exact Hkey|].
  exact (proj1 (@X10_present_header_copied toy_chess white_only "White" "Carlsen" eq_refl)
           Hkey).
Defined.

Lemma X11_site_is_dropped :
  headers new_york_game !! "Site" = Some "New York City"
  ∧ ("Site" ∉ recognized_keys)
  ∧ dict_lookup (pgn_to_JSON.game_metadata new_york_game) "Site" = None
  ∧ dict_lookup (pgn_to_JSON_converter.game_metadata new_york_game) "Site" = None.
Proof.
  assert ("Site" ∉ recognized_keys) as Hkey.
  { intros Hin. unfold recognized_keys in Hin.
    repeat (apply elem_of_cons in Hin as [Hin|Hin]; [discriminate|]).
    by apply elem_of_nil in Hin. }
  split; [reflexivity|]. split; [exact Hkey|].
  exact (proj1 (@X11_other_headers_dropped toy_chess new_york_game "Site") Hkey).
Defined.

Lemma X14_new_york_link :
  csv_file_generator.game_row 4 new_york_game !! 3%nat
    = Some "https://www.google.com/maps/search/New+York+City"
  ∧ occurs csv_file_generator.space "https://www.google.com/maps/search/New+York+City"
    = false.
Proof.
  split; [reflexivity|].
  exact (proj1 (@X14_link_has_no_space toy_chess 4 new_york_game
                  "https://www.google.com/maps/search/New+York+City" eq_refl)).
Defined.

Lemma X15_same_label_same_file :
  head (csv_file_generator.game_row 4 new_york_game)
    = head (csv_file_generator.game_row 4 white_only)
  ∧ 4 = 4.
Proof.
  split; [reflexivity|].
  exact (@X15_game_numbers_distinct toy_chess 4 4 new_york_game white_only eq_refl).
Defined.

Lemma X16_forty_requests :
  (∀ i, 1 ≤ i ≤ 20 → @readable toy_chess (all_games i))
  ∧ ∃ s',
      @pgn_to_JSON.parse_pgn_and_generate_json toy_chess net_down all_games
        (@start net_down tt) = (Ok tt, s')
      ∧ length (sent s') = 40%nat.
Proof.
  split; [intros i _; apply all_games_readable|].
  destruct (proj1 (@X16_run_sends_one_request_per_move toy_chess net_down all_games
                     (@start net_down tt)) (λ i _, all_games_readable i))
    as (s' & Hrun & _ & Hlen).
  exists s'. split; assumption.
Defined.

(** * Games whose text holds an illegal move *)

Lemma accepted_prefix_replays `{ChessLib} moves :
  ∀ board, replay_error board (accepted_prefix board moves) = None.
Proof.
  induction moves as [|move rest IH]; intros board; [done|].
  cbn [accepted_prefix]. destruct (push board move) as [e|b] eqn:Hpush; [done|].
  cbn [replay_error]. rewrite Hpush. apply IH.
Qed.

Lemma accepted_prefix_positions `{ChessLib} moves :
  ∀ board, positions board (accepted_prefix board moves) = positions board moves.
Proof.
  induction moves as [|move rest IH]; intros board; [done|].
  cbn [accepted_prefix positions].
  destruct (push board move) as [e|b] eqn:Hpush; [done|].
  cbn [positions]. rewrite Hpush. by rewrite IH.
Qed.

Lemma accepted_prefix_take `{ChessLib} moves :
  ∀ board, accepted_prefix board moves = take (length (positions board moves)) moves.
Proof.
  induction moves as [|move rest IH]; intros board; [done|].
  cbn [accepted_prefix positions].
  destruct (push board move) as [e|b]; [done|]. simpl. by rewrite <- IH.
Qed.

Lemma read_game_replayable `{ChessLib} (pgn : PgnText) : replayable (read_game pgn).
Proof. apply accepted_prefix_replays. Qed.

Lemma open_folder_readable `{ChessLib} (sources : Z → PgnSource) i :
  sources i ≠ SourceMissing → readable (open_folder sources i).
Proof.
  unfold open_folder. destruct (sources i) as [| |pgn]; [done|done|].
  intros _. apply read_game_replayable.
Qed.

Lemma read_game_records `{ChessLib} `{Requests} (pgn : PgnText) (s : Sys) :
  ∃ recs s',
    process_game_moves_and_analyze (read_game pgn) s = (Ok recs, s')
    ∧ Move_uci <$> recs
      = move_uci <$> take (length (positions (start_board pgn) (movetext pgn))) (movetext pgn)
    ∧ sent s' = sent s ++ (request_for <$> positions (start_board pgn) (movetext pgn)).
Proof.
  destruct (process_accepted (read_game pgn) s (read_game_replayable pgn))
    as (recs & s' & Hrun & _ & Hsent & _ & _ & Huci & _).
  exists recs, s'. split; [done|]. cbn [read_game mainline_moves game_board] in *.
  rewrite accepted_prefix_positions in Hsent. by rewrite <- accepted_prefix_take.
Qed.

(** C3, as amended: when the text of game i holds a move the board rejects
    at ply k, no exception arises anywhere: the parser hands over the game
    cut before that move, the game is saved with exactly the k-1 move
    records of the plies before k, and processing continues with the next
    game, every file of the folder that holds a game being saved. *)
Theorem C3_illegal_move_cuts_the_game `{ChessLib} `{Requests}
    (sources : Z → PgnSource) (i : Z) (pgn : PgnText) (e : Exception) (s : Sys) :
  1 ≤ i ≤ 20 →
  (∀ j, 1 ≤ j ≤ 20 → sources j ≠ SourceMissing) →
  sources i = SourceText pgn →
  replay_error (start_board pgn) (movetext pgn) = Some e →
  ∃ s' new data,
    pgn_to_JSON.parse_pgn_and_generate_json (open_folder sources) s = (Ok tt, s')
    ∧ effects s' = effects s ++ new
    ∧ (dumped_games new).*1
      = List.filter (λ j, holds_game (open_folder sources j)) (seqZ 1 20)
    ∧ (∀ j, 1 ≤ j ≤ 20 → holds_game (open_folder sources j) = true →
         j ∈ (dumped_games new).*1)
    ∧ (i, data) ∈ dumped_games new
    ∧ Move_uci <$> Moves data
      = move_uci <$> take (length (positions (start_board pgn) (movetext pgn))) (movetext pgn)
    ∧ (length (Moves data) = length (positions (start_board pgn) (movetext pgn)))
    ∧ (length (Moves data) < length (movetext pgn))%nat.
Proof.
  intros Hi Hfiles Hsrc Hrej.
  destruct (run_saves (open_folder sources)
              (pgn_to_JSON.game_step (open_folder sources))
              (λ _, false) pgn_to_JSON.game_metadata (seqZ 1 20)) with (s := s)
    as (s' & new & Hrun & Heff & _ & Hd & Hr).
  { intros j s0 Hj. apply step_saves, open_folder_readable, Hfiles.
    apply elem_of_seqZ in Hj. lia. }
  assert (∀ j, 1 ≤ j ≤ 20 → holds_game (open_folder sources j) = true →
            j ∈ (dumped_games new).*1) as Hall.
  { intros j Hj Hholds. rewrite Hd. apply list_elem_of_In, filter_In.
    split; [|done]. apply list_elem_of_In, elem_of_seqZ. lia. }
  assert (open_folder sources i = PgnGame (read_game pgn)) as Hopen.
  { unfold open_folder. by rewrite Hsrc. }
  assert (i ∈ (dumped_games new).*1) as Hin.
  { apply Hall; [done|]. by rewrite Hopen. }
  apply list_elem_of_fmap in Hin as ([j data] & Hj & Hdata). simpl in Hj. subst j.
  exists s', new, data. do 5 (split; [done|]).
  eapply Forall_forall in Hr; [|exact Hdata]. simpl in Hr.
  destruct Hr as (game & Hgame & _ & Huci). rewrite Hopen in Hgame.
  injection Hgame as <-. cbn [read_game mainline_moves] in Huci.
  rewrite accepted_prefix_take in Huci.
  pose proof (positions_short _ _ _ Hrej) as Hshort.
  assert (length (Moves data) = length (positions (start_board pgn) (movetext pgn))) as Hlen.
  { apply (f_equal length) in Huci. rewrite !length_fmap, length_take in Huci. lia. }
  split; [done|]. split; [done|]. lia.
Qed.

(** C3, as stated, fails: the text of game 2 has an illegal second move,
    yet the run raises nothing, saves game 2 with the one move record of
    its first ply, and saves all twenty games. *)
Lemma C3_game_with_illegal_move_is_saved :
  let run := @pgn_to_JSON.parse_pgn_and_generate_json toy_chess net_down
               (open_folder illegal_in_second) (@start net_down tt) in
  @replay_error toy_chess (true, []) [1; 0; 3]%nat = Some (IllegalMoveError "illegal move")
  ∧ run.1 = Ok tt
  ∧ (dumped_games (effects run.2)).*1 = seqZ 1 20
  ∧ (λ d, (d.1, Move_uci <$> Moves d.2)) <$> dumped_games (effects run.2) !! 1%nat
    = Some (2, ["e2e4"]).
Proof. vm_compute. by repeat split. Qed.

(** X2: for a game whose text holds a move the board rejects,
    [process_game_moves_and_analyze] gets the game cut before that move and
    returns normally: the records are those of the moves before the
    rejected one, one request is sent per such ply, and the rejected move
    and the moves after it are neither recorded nor analysed. *)
Theorem X2_illegal_move_ends_the_requests `{ChessLib} `{Requests}
    (pgn : PgnText) (e : Exception) (s : Sys) :
  replay_error (start_board pgn) (movetext pgn) = Some e →
  ∃ recs s',
    process_game_moves_and_analyze (read_game pgn) s = (Ok recs, s')
    ∧ Move_uci <$> recs
      = move_uci <$> take (length (positions (start_board pgn) (movetext pgn))) (movetext pgn)
    ∧ sent s' = sent s ++ (request_for <$> positions (start_board pgn) (movetext pgn))
    ∧ (length (sent s') < length (sent s) + length (movetext pgn))%nat.
Proof.
  intros Hrej. destruct (read_game_records pgn s) as (recs & s' & Hrun & Huci & Hsent).
  exists recs, s'. do 3 (split; [done|]).
  rewrite Hsent, length_app, length_fmap.
  pose proof (positions_short _ _ _ Hrej). lia.
Qed.

(** X9: a game with an illegal move does not stop the single-file driver
    either: every game of the file is dumped, in file order and in one
    piece, and the game with the illegal move appears with the move
    records of the plies before that move. *)
Theorem X9_extractor_keeps_the_cut_game `{ChessLib} `{Requests}
    (before after : list PgnText) (pgn : PgnText) (e : Exception) (s : Sys) :
  replay_error (start_board pgn) (movetext pgn) = Some e →
  ∃ datas data s',
    pgn_data_extractor.parse_pgn_and_generate_json
      (read_game <$> (before ++ pgn :: after)) s = (Ok tt, s')
    ∧ effects s' = effects s
        ++ (PrintAnalyzing <$> seqZ 1 (Z.of_nat (length (before ++ pgn :: after))))
        ++ [PrintEndOfFile; JsonDumpAll datas; PrintAllSaved]
    ∧ length datas = length (before ++ pgn :: after)
    ∧ datas !! length before = Some data
    ∧ Move_uci <$> Moves data
      = move_uci <$> take (length (positions (start_board pgn) (movetext pgn))) (movetext pgn)
    ∧ (length (Moves data) < length (movetext pgn))%nat.
Proof.
  intros Hrej.
  assert (Forall replayable (read_game <$> (before ++ pgn :: after))) as Hall.
  { apply Forall_fmap, Forall_true. intros x. apply read_game_replayable. }
  unfold pgn_data_extractor.parse_pgn_and_generate_json, bind.
  destruct (read_games_all _ Hall 0 [] s) as (datas & s1 & -> & Heff & Hrecs).
  rewrite length_fmap in Heff.
  assert ((read_game <$> (before ++ pgn :: after)) !! length before = Some (read_game pgn))
    as Hlook.
  { rewrite list_lookup_fmap, lookup_app_r by lia. by rewrite Nat.sub_diag. }
  destruct (Forall2_lookup_l _ _ _ _ _ Hrecs Hlook) as (data & Hdata & _ & Huci).
  exists datas, data. eexists. split; [reflexivity|].
  split; [unfold emit; simpl; by rewrite Heff, <- !app_assoc|].
  split; [by rewrite <- (Forall2_length _ _ _ Hrecs), length_fmap|].
  split; [done|]. cbn [read_game mainline_moves] in Huci.
  rewrite accepted_prefix_take in Huci. split; [done|].
  apply (f_equal length) in Huci. rewrite !length_fmap, length_take in Huci.
  pose proof (positions_short _ _ _ Hrej). lia.
Qed.


(** ** The same at concrete inputs *)

Lemma illegal_in_second_all_there j : 1 ≤ j ≤ 20 → illegal_in_second j ≠ SourceMissing.
Proof. intros _. unfold illegal_in_second. by destruct (bool_decide (j = 2)). Qed.

Lemma C3_second_game_cut :
  1 ≤ 2 ≤ 20
  ∧ illegal_in_second 2 = SourceText (toy_text [1; 0; 3]%nat)
  ∧ @replay_error toy_chess (true, []) [1; 0; 3]%nat = Some (IllegalMoveError "illegal move")
  ∧ ∃ s' new data,
      @pgn_to_JSON.parse_pgn_and_generate_json toy_chess net_down
        (open_folder illegal_in_second) (@start net_down tt) = (Ok tt, s')
      ∧ (2, data) ∈ dumped_games new
      ∧ Move_uci <$> Moves data = ["e2e4"]
      ∧ 3 ∈ (dumped_games new).*1.
Proof.
  split; [lia|]. split; [reflexivity|]. split; [reflexivity|].
  destruct (@C3_illegal_move_cuts_the_game toy_chess net_down illegal_in_second 2
              (toy_text [1; 0; 3]%nat) (IllegalMoveError "illegal move")
              (@start net_down tt) ltac:(lia) illegal_in_second_all_there eq_refl eq_refl)
    as (s' & new & data & Hrun & _ & _ & Hall & Hdata & Huci & _).
  exists s', new, data. split; [assumption|]. split; [assumption|].
  split; [assumption|]. apply Hall; [lia|reflexivity].
Defined.

Lemma X2_one_request_for_three_written_moves :
  @replay_error toy_chess (true, []) [1; 0; 3]%nat = Some (IllegalMoveError "illegal move")
  ∧ ∃ recs s',
      @process_game_moves_and_analyze toy_chess net_down
        (read_game (toy_text [1; 0; 3]%nat)) (@start net_down tt) = (Ok recs, s')
      ∧ Move_uci <$> recs = ["e2e4"]
      ∧ sent s' = [(api_url, mkParams "e2e4 w" 15)].
Proof.
  split; [reflexivity|].
  destruct (@X2_illegal_move_ends_the_requests toy_chess net_down
              (toy_text [1; 0; 3]%nat) (IllegalMoveError "illegal move")
              (@start net_down tt) eq_refl)
    as (recs & s' & Hrun & Huci & Hsent & _).
  exists recs, s'. repeat split; assumption.
Defined.

Lemma X9_three_games_all_dumped :
  @replay_error toy_chess (true, []) [1; 0; 3]%nat = Some (IllegalMoveError "illegal move")
  ∧ ∃ datas data s',
      @pgn_data_extractor.parse_pgn_and_generate_json toy_chess net_down
        (read_game <$> ([toy_text [1%nat]] ++ toy_text [1; 0; 3]%nat :: [toy_text [2%nat]]))
        (@start net_down tt) = (Ok tt, s')
      ∧ length datas = 3%nat
      ∧ datas !! 1%nat = Some data
      ∧ Move_uci <$> Moves data = ["e2e4"].
Proof.
  split; [reflexivity|].
  destruct (@X9_extractor_keeps_the_cut_game toy_chess net_down
              [toy_text [1%nat]] [toy_text [2%nat]] (toy_text [1; 0; 3]%nat)
              (IllegalMoveError "illegal move") (@start net_down tt) eq_refl)
    as (datas & data & s' & Hrun & _ & Hlen & Hdata & Huci & _).
  exists datas, data, s'. repeat split; assumption.
Defined.

